(** * Authentication core of the ToDoDemo backend

    Shallow embedding of the TypeScript sources:
    - [src/utils/password.util.ts]      (PasswordUtil)
    - [src/utils/jwt.util.ts]           (JWTUtil)
    - [src/services/user.service.ts]    (UserService)
    - [src/services/auth.service.ts]    (AuthService)
    - [src/middleware/auth.middleware.ts] (authenticateToken)
    - [src/controllers/*.controller.ts] (the user-object shaping)

    The libraries the code calls (bcrypt, jsonwebtoken and the Prisma
    client) are external: bcrypt and jsonwebtoken are section variables,
    the Prisma client is modelled as a table of users with the unique
    constraints of the schema plus an oracle [flt] that can make any call
    fail with an infrastructure error. Async code runs in a state and
    error monad whose state is the database; a thrown exception does not
    roll the state back. *)

From Stdlib Require Import String Ascii List Bool Arith Lia Sorted Permutation.
Import ListNotations.
Open Scope string_scope.
Set Warnings "-register-all".

(** ** Strings as JavaScript handles them *)

Definition truthy (s : string) : bool := negb (String.eqb s "").

(** ASCII part of [String.prototype.toLowerCase]. *)
Definition lower_ascii (c : ascii) : ascii :=
  let n := nat_of_ascii c in
  if ((65 <=? n) && (n <=? 90))%nat then ascii_of_nat (n + 32)%nat else c.

Fixpoint toLowerCase (s : string) : string :=
  match s with
  | EmptyString => EmptyString
  | String c r => String (lower_ascii c) (toLowerCase r)
  end.

(** [s.split(' ')]: cut at every single space. *)
Fixpoint split_space (s : string) : list string :=
  match s with
  | EmptyString => [""]
  | String c r =>
      if Ascii.eqb c " "%char then "" :: split_space r
      else match split_space r with
           | h :: t => String c h :: t
           | [] => [String c ""]
           end
  end.

(** [s.includes(pat)]. *)
Fixpoint includes (s pat : string) : bool :=
  String.prefix pat s ||
  match s with
  | EmptyString => false
  | String _ r => includes r pat
  end.

(** Decimal rendering of a counter, used for generated ids. *)
Fixpoint digits_aux (fuel n : nat) (acc : string) : string :=
  match fuel with
  | 0 => acc
  | S f =>
      let acc' := String (ascii_of_nat (48 + n mod 10)%nat) acc in
      if (n <? 10)%nat then acc' else digits_aux f (n / 10)%nat acc'
  end.

Definition nat_to_string (n : nat) : string := digits_aux (S n) n "".

(** ** Thrown values *)

(** Everything the code can throw: plain [new Error(msg)], errors raised
    by a library (with the Prisma [code] field when there is one), the
    domain error classes of the services, and a non-[Error] value. *)
Inductive thrown : Type :=
| PlainError (message : string)
| LibError (name message : string) (code : option string)
| UserNotFoundError (identifier : string)
| UserAlreadyExistsError (email : string)
| UserServiceError (message : string) (originalError : option thrown)
| InvalidCredentialsError
| AuthServiceError (message : string) (originalError : option thrown)
| NonErrorValue.

(** [error instanceof Error]. *)
Definition is_error (e : thrown) : bool :=
  match e with NonErrorValue => false | _ => true end.

(** [error.message] as set by each constructor. *)
Definition message (e : thrown) : string :=
  match e with
  | PlainError m => m
  | LibError _ m _ => m
  | UserNotFoundError i => "User not found: " ++ i
  | UserAlreadyExistsError em => "User with email " ++ em ++ " already exists"
  | UserServiceError m _ => m
  | InvalidCredentialsError => "Invalid email or password"
  | AuthServiceError m _ => m
  | NonErrorValue => ""
  end.

(** [(error as any)?.code]. *)
Definition code_of (e : thrown) : option string :=
  match e with LibError _ _ c => c | _ => None end.

Definition code_is (e : thrown) (c : string) : bool :=
  match code_of e with Some c' => String.eqb c' c | None => false end.

(** ** Data model *)

(** A row of the [User] table as the Prisma client returns it. *)
Record User : Type := mkUser {
  id : string;
  name : string;
  email : string;
  password : string;
  createdAt : nat;
  updatedAt : nat
}.

Record JWTPayload : Type := mkPayload { userId : string; p_email : string }.

(** The validated request bodies ([z.infer] of the schemas). *)
Record UserRegistrationInput : Type :=
  mkReg { reg_name : string; reg_email : string; reg_password : string }.
Record UserLoginInput : Type :=
  mkLogin { login_email : string; login_password : string }.
Record UserUpdateInput : Type := mkUpd {
  upd_name : option string; upd_email : option string; upd_password : option string }.

(** JavaScript objects sent outwards: own keys with their values. *)
Inductive jsval : Type := JStr (s : string) | JDate (t : nat).
Definition obj := list (string * jsval).

Definition user_obj (u : User) : obj :=
  [("id", JStr (id u)); ("name", JStr (name u)); ("email", JStr (email u));
   ("password", JStr (password u));
   ("createdAt", JDate (createdAt u)); ("updatedAt", JDate (updatedAt u))].

Definition has_key (k : string) (o : obj) : bool :=
  existsb (fun kv => String.eqb (fst kv) k) o.

(** [const { password, ...rest } = user]: every own key but [password]. *)
Definition excludePassword (o : obj) : obj :=
  filter (fun kv => negb (String.eqb (fst kv) "password")) o.

Record AuthResponse : Type := mkAuth { token : string; auth_user : obj }.

(** ** Database state and the state/error monad *)

Inductive DbCall : Type :=
| FindById (i : string)
| FindByEmail (e : string)
| Create (e : string)
| Update (i : string)
| Delete (i : string)
| FindMany.

Record St : Type := mkSt {
  users : list User;
  next_id : nat;
  now : nat;
  calls : list DbCall   (* every Prisma call made, newest first *)
}.

Inductive result (A : Type) : Type := Ok (a : A) | Err (e : thrown).
Arguments Ok {A} a.
Arguments Err {A} e.

Definition M (A : Type) : Type := St -> result A * St.

Definition ret {A} (a : A) : M A := fun s => (Ok a, s).
Definition throw {A} (e : thrown) : M A := fun s => (Err e, s).
Definition bind {A B} (m : M A) (k : A -> M B) : M B :=
  fun s => match m s with
           | (Ok a, s') => k a s'
           | (Err e, s') => (Err e, s')
           end.
(** [try { m } catch (e) { h(e) }]: the state reached stays. *)
Definition try_catch {A} (m : M A) (h : thrown -> M A) : M A :=
  fun s => match m s with
           | (Ok a, s') => (Ok a, s')
           | (Err e, s') => h e s'
           end.
Definition lift {A} (r : result A) : M A := fun s => (r, s).
Definition get_now : M nat := fun s => (Ok (now s), s).

Notation "x <- m ;; k" := (bind m (fun x => k))
  (at level 61, m at next level, right associativity).
Notation "m ;;; k" := (bind m (fun _ => k))
  (at level 61, right associativity).

Definition set_users (s : St) (us : list User) : St :=
  mkSt us (next_id s) (now s) (calls s).
Definition log_call (c : DbCall) (s : St) : St :=
  mkSt (users s) (next_id s) (now s) (c :: calls s).

(** The outcome of a zod [parse]. *)
Inductive parse_result (A : Type) : Type := Valid (a : A) | Invalid (issues : list string).
Arguments Valid {A} a.
Arguments Invalid {A} issues.

(** What [jwt.verify(token, secret)] does at a given time: return the
    decoded payload (a missing claim reads as [""]), throw
    [TokenExpiredError], throw [JsonWebTokenError] (or its subclass
    [NotBeforeError]), or throw anything else. *)
Inductive jwt_outcome : Type :=
| JOk (decoded : JWTPayload)
| JExpired
| JInvalid
| JRaiseError (name msg : string)
| JRaiseNonError.

(** A failure of the database infrastructure (connection lost, timeout,
    ...), as the Prisma client raises it. *)
Record LibFault : Type := mkFault {
  lf_name : string; lf_message : string; lf_code : option string }.

Definition lib_error (f : LibFault) : thrown :=
  LibError (lf_name f) (lf_message f) (lf_code f).

(** ** Concrete collaborators, for examples and witnesses *)

Definition flt0 : DbCall -> option LibFault := fun _ => None.
Definition hash0 (p : string) : string := "$2b$12$" ++ p.
Definition compare0 (p h : string) : bool := String.eqb (hash0 p) h.
Definition sign0 (p : JWTPayload) (k exp : string) (t : nat) : string :=
  "tok:" ++ userId p.
Definition verify0 (tok k : string) (t : nat) : jwt_outcome :=
  if String.eqb k "s3cret" then
    if String.eqb tok "tok:c0" then JOk (mkPayload "c0" "john@example.com")
    else if String.eqb tok "old" then JExpired
    else JInvalid
  else JInvalid.
Definition email_ok0 (e : string) : bool := includes e "@".

Definition st0 : St := mkSt [] 0 100 [].
Definition john : UserRegistrationInput := mkReg "John Doe" "john@example.com" "Password123".
Definition john_u : User :=
  mkUser "c0" "John Doe" "john@example.com" (hash0 "Password123") 100 100.
(** The store after registering [john] on [st0]. *)
Definition st1 : St :=
  mkSt [john_u] 1 100 [Create "john@example.com"; FindByEmail "john@example.com"].
(** A client whose [create] fails with the given Prisma error code. *)
Definition flt_on_create (code : option string) : DbCall -> option LibFault :=
  fun c => match c with
           | Create _ => Some (mkFault "PrismaClientKnownRequestError" "constraint failed" code)
           | _ => None
           end.
(** A client whose email lookup fails: the database is unreachable. *)
Definition flt_on_find : DbCall -> option LibFault :=
  fun c => match c with
           | FindByEmail _ => Some (mkFault "PrismaClientInitializationError" "database unreachable" None)
           | _ => None
           end.

(** A second user, and the store holding both. *)
Definition jane_u : User :=
  mkUser "c1" "Jane Roe" "jane@example.com" (hash0 "Secret123") 100 100.
Definition st2 : St := mkSt [john_u; jane_u] 2 100 [].

(** ** The application, over its external collaborators *)

Section Backend.

(** Which Prisma calls fail with an infrastructure error. *)
Variable flt : DbCall -> option LibFault.

(** bcrypt: [bcrypt.hash] (salted, cost factor 12) and [bcrypt.compare],
    which answers [false] for a malformed hash. *)
Variable bcrypt_hash : string -> string.
Variable bcrypt_compare : string -> string -> bool.

(** jsonwebtoken: [jwt.sign(payload, secret, {expiresIn})] and
    [jwt.verify(token, secret)], both at a given time. *)
Variable jwt_sign : JWTPayload -> string -> string -> nat -> string.
Variable jwt_verify : string -> string -> nat -> jwt_outcome.

(** *** Prisma client, [prisma.user.*] *)

Definition db_call {A} (c : DbCall) (body : M A) : M A :=
  fun s => let s1 := log_call c s in
           match flt c with
           | Some f => (Err (lib_error f), s1)
           | None => body s1
           end.

Definition P2002 : thrown :=
  LibError "PrismaClientKnownRequestError"
    "Unique constraint failed on the fields: (`email`)" (Some "P2002").
Definition P2025 (msg : string) : thrown :=
  LibError "PrismaClientKnownRequestError" msg (Some "P2025").

Definition find_id (i : string) (us : list User) : option User :=
  find (fun u => String.eqb (id u) i) us.
Definition find_email (e : string) (us : list User) : option User :=
  find (fun u => String.eqb (email u) e) us.

(** [findUnique({ where: { id } })]. *)
Definition prisma_findUnique_id (i : string) : M (option User) :=
  db_call (FindById i) (fun s => (Ok (find_id i (users s)), s)).

(** [findUnique({ where: { email } })]: the unique index compares exactly. *)
Definition prisma_findUnique_email (e : string) : M (option User) :=
  db_call (FindByEmail e) (fun s => (Ok (find_email e (users s)), s)).

(** [create({ data: { name, email, password } })]: the id is generated,
    the timestamps are set by the data layer, [email] is unique. *)
Definition prisma_create (nm em pw : string) : M User :=
  db_call (Create em) (fun s =>
    if existsb (fun u => String.eqb (email u) em) (users s) then (Err P2002, s)
    else
      let u := mkUser ("c" ++ nat_to_string (next_id s)) nm em pw (now s) (now s) in
      (Ok u, mkSt (users s ++ [u]) (S (next_id s)) (now s) (calls s))).

(** The [Prisma.UserUpdateInput] object: only the keys it carries. *)
Record UpdateData : Type := mkUpdateData {
  ud_name : option string; ud_email : option string; ud_password : option string }.

Definition apply_update (d : UpdateData) (t : nat) (u : User) : User :=
  mkUser (id u)
    (match ud_name d with Some n => n | None => name u end)
    (match ud_email d with Some e => e | None => email u end)
    (match ud_password d with Some p => p | None => password u end)
    (createdAt u) t.

(** [update({ where: { id }, data })]: [updatedAt] is refreshed by the
    data layer ([@updatedAt]). *)
Definition prisma_update (i : string) (d : UpdateData) : M User :=
  db_call (Update i) (fun s =>
    match find_id i (users s) with
    | None => (Err (P2025 "Record to update not found."), s)
    | Some u =>
        let clash :=
          match ud_email d with
          | Some e => existsb (fun r => negb (String.eqb (id r) i) && String.eqb (email r) e) (users s)
          | None => false
          end in
        if clash then (Err P2002, s)
        else (Ok (apply_update d (now s) u),
              set_users s (map (fun r => if String.eqb (id r) i then apply_update d (now s) r else r) (users s)))
    end).

(** [delete({ where: { id } })]: [id] is the primary key. *)
Definition prisma_delete (i : string) : M unit :=
  db_call (Delete i) (fun s =>
    match find_id i (users s) with
    | None => (Err (P2025 "Record to delete does not exist."), s)
    | Some _ => (Ok tt, set_users s (filter (fun r => negb (String.eqb (id r) i)) (users s)))
    end).

(** [findMany({ orderBy: { createdAt: 'desc' } })]. *)
Fixpoint insert_desc (u : User) (us : list User) : list User :=
  match us with
  | [] => [u]
  | v :: r => if (createdAt v <? createdAt u)%nat then u :: us else v :: insert_desc u r
  end.
Definition sort_desc (us : list User) : list User := fold_right insert_desc [] us.

Definition prisma_findMany : M (list User) :=
  db_call FindMany (fun s => (Ok (sort_desc (users s)), s)).


(** *** [PasswordUtil] *)

Definition hashPassword (pw : string) : M string :=
  if negb (truthy pw) then throw (PlainError "Password must be a non-empty string")
  else ret (bcrypt_hash pw).

Definition verifyPassword (pw hashed : string) : M bool :=
  if negb (truthy pw) then throw (PlainError "Password must be a non-empty string")
  else if negb (truthy hashed) then throw (PlainError "Hashed password must be a non-empty string")
  else ret (bcrypt_compare pw hashed).

(** *** [JWTUtil]; [secret] is [process.env['JWT_SECRET']]. *)

Definition secret_ok (secret : option string) : option string :=
  match secret with Some k => if truthy k then Some k else None | None => None end.

Definition DEFAULT_EXPIRES_IN := "24h".

Definition generateToken (secret : option string) (p : JWTPayload)
    (expiresIn : option string) (t : nat) : result string :=
  match secret_ok secret with
  | None => Err (PlainError "JWT_SECRET environment variable is required")
  | Some k =>
      if negb (truthy (userId p)) || negb (truthy (p_email p))
      then Err (PlainError "Payload must contain userId and email")
      else
        let exp := match expiresIn with Some x => if truthy x then x else DEFAULT_EXPIRES_IN
                                        | None => DEFAULT_EXPIRES_IN end in
        Ok (jwt_sign p k exp t)
  end.

Definition verifyToken (secret : option string) (tok : string) (t : nat) : result JWTPayload :=
  match secret_ok secret with
  | None => Err (PlainError "JWT_SECRET environment variable is required")
  | Some k =>
      if negb (truthy tok) then Err (PlainError "Token must be a non-empty string")
      else
        (* try { jwt.verify; payload check } catch { map the jwt errors } *)
        match jwt_verify tok k t with
        | JOk d =>
            if negb (truthy (userId d)) || negb (truthy (p_email d))
            then Err (PlainError "Invalid token payload")   (* rethrown as is *)
            else Ok d
        | JExpired => Err (PlainError "Token expired")
        | JInvalid => Err (PlainError "Invalid token")
        | JRaiseError nm m => Err (LibError nm m None)
        | JRaiseNonError => Err NonErrorValue
        end
  end.

Definition isTokenExpired (secret : option string) (tok : string) (t : nat) : bool :=
  match verifyToken secret tok t with
  | Ok _ => false
  | Err e => is_error e && String.eqb (message e) "Token expired"
  end.

(** *** [UserService] *)

Definition findById (i : string) : M (option User) :=
  try_catch (prisma_findUnique_id i)
    (fun e => throw (UserServiceError ("Failed to find user by ID: " ++ i) (Some e))).

Definition findByEmail (e : string) : M (option User) :=
  try_catch (prisma_findUnique_email (toLowerCase e))
    (fun err => throw (UserServiceError ("Failed to find user by email: " ++ e) (Some err))).

Definition createUser (d : UserRegistrationInput) : M User :=
  try_catch
    (existing <- findByEmail (reg_email d) ;;
     match existing with
     | Some _ => throw (UserAlreadyExistsError (reg_email d))
     | None =>
         hashed <- hashPassword (reg_password d) ;;
         prisma_create (reg_name d) (reg_email d) hashed
     end)
    (fun e =>
       match e with
       | UserAlreadyExistsError _ => throw e
       | _ => if code_is e "P2002" then throw (UserAlreadyExistsError (reg_email d))
              else throw (UserServiceError "Failed to create user" (Some e))
       end).

(** [data.x && ...]: a field counts when present and non-empty. *)
Definition supplied (o : option string) : option string :=
  match o with Some v => if truthy v then Some v else None | None => None end.

Definition updateUser (i : string) (d : UserUpdateInput) : M User :=
  try_catch
    (existing <- findById i ;;
     match existing with
     | None => throw (UserNotFoundError i)
     | Some eu =>
         (match supplied (upd_email d) with
          | Some e =>
              if negb (String.eqb e (email eu)) then
                exists_ <- findByEmail e ;;
                match exists_ with
                | Some _ => throw (UserAlreadyExistsError e)
                | None => ret tt
                end
              else ret tt
          | None => ret tt
          end) ;;;
         let base := mkUpdateData (supplied (upd_name d)) (supplied (upd_email d)) None in
         data <- (match supplied (upd_password d) with
                  | Some p => h <- hashPassword p ;;
                              ret (mkUpdateData (ud_name base) (ud_email base) (Some h))
                  | None => ret base
                  end) ;;
         prisma_update i data
     end)
    (fun e =>
       match e with
       | UserNotFoundError _ | UserAlreadyExistsError _ => throw e
       | _ =>
           if code_is e "P2002" then
             throw (UserAlreadyExistsError
                      (match supplied (upd_email d) with Some x => x | None => "unknown" end))
           else if code_is e "P2025" then throw (UserNotFoundError i)
           else throw (UserServiceError ("Failed to update user: " ++ i) (Some e))
       end).

Definition deleteUser (i : string) : M unit :=
  try_catch (prisma_delete i)
    (fun e =>
       if code_is e "P2025" then throw (UserNotFoundError i)
       else throw (UserServiceError ("Failed to delete user: " ++ i) (Some e))).

Definition findAll : M (list User) :=
  try_catch prisma_findMany
    (fun e => throw (UserServiceError "Failed to retrieve users" (Some e))).

(** *** [AuthService] *)

Definition register (secret : option string) (d : UserRegistrationInput) : M AuthResponse :=
  try_catch
    (user <- createUser d ;;
     t <- get_now ;;
     tok <- lift (generateToken secret (mkPayload (id user) (email user)) None t) ;;
     ret (mkAuth tok (excludePassword (user_obj user))))
    (fun e =>
       match e with
       | UserAlreadyExistsError _ => throw e
       | _ => throw (AuthServiceError "Registration failed" (Some e))
       end).

Definition login (secret : option string) (d : UserLoginInput) : M AuthResponse :=
  try_catch
    (found <- findByEmail (login_email d) ;;
     match found with
     | None => throw InvalidCredentialsError
     | Some user =>
         valid <- verifyPassword (login_password d) (password user) ;;
         if negb valid then throw InvalidCredentialsError
         else
           t <- get_now ;;
           tok <- lift (generateToken secret (mkPayload (id user) (email user)) None t) ;;
           ret (mkAuth tok (excludePassword (user_obj user)))
     end)
    (fun e =>
       match e with
       | InvalidCredentialsError => throw e
       | _ => throw (AuthServiceError "Login failed" (Some e))
       end).

Definition validateToken (secret : option string) (tok : string) : M JWTPayload :=
  try_catch
    (t <- get_now ;;
     payload <- lift (verifyToken secret tok t) ;;
     user <- findById (userId payload) ;;
     match user with
     | None => throw (AuthServiceError "User no longer exists" None)
     | Some _ => ret payload
     end)
    (fun e =>
       match e with
       | AuthServiceError _ _ => throw e
       | _ => throw (AuthServiceError "Token validation failed" (Some e))
       end).

(** *** [authenticateToken] *)

(** What the middleware does with the request: call [next()] with
    [req.user] set, or answer with an error envelope. *)
Inductive MwOutcome : Type :=
| MwNext (user : JWTPayload)
| MwFail (status : nat) (code : string) (msg : string).

(** [authHeader] is [req.headers.authorization]; [t] the clock. *)
Definition authenticateToken (authHeader : option string) (secret : option string)
    (t : nat) : MwOutcome :=
  match authHeader with
  | None => MwFail 401 "MISSING_TOKEN" "Authorization header is required"
  | Some h =>
      if negb (truthy h) then MwFail 401 "MISSING_TOKEN" "Authorization header is required"
      else
        let parts := split_space h in
        if negb (Nat.eqb (length parts) 2) || negb (String.eqb (nth 0 parts "") "Bearer") then
          MwFail 401 "INVALID_TOKEN_FORMAT" "Authorization header must be in format: Bearer <token>"
        else
          let tok := nth 1 parts "" in
          if negb (truthy tok) then MwFail 401 "MISSING_TOKEN" "Token is required"
          else
            match verifyToken secret tok t with
            | Ok decoded => MwNext decoded
            | Err e =>
                if is_error e then
                  let m := message e in
                  if String.eqb m "Token expired" then MwFail 401 "TOKEN_EXPIRED" m
                  else if String.eqb m "Invalid token" then MwFail 401 "INVALID_TOKEN" m
                  else if includes m "JWT_SECRET" then MwFail 500 "SERVER_ERROR" m
                  else MwFail 401 "INVALID_TOKEN" m
                else MwFail 500 "SERVER_ERROR" "Internal server error during authentication"
            end
  end.

(** *** Controllers: the data part of each success envelope *)

Inductive RespData : Type :=
| DUser (u : obj)
| DUsers (us : list obj)
| DAuth (a : AuthResponse)
| DNone.

Inductive Resp : Type :=
| RespOk (status : nat) (data : RespData)
| RespErr (status : nat) (code msg : string).

Definition ctl_register (secret : option string) (d : UserRegistrationInput) : M Resp :=
  fun s => match register secret d s with
           | (Ok a, s') => (Ok (RespOk 201 (DAuth a)), s')
           | (Err e, s') =>
               (Ok (match e with
                    | UserAlreadyExistsError _ => RespErr 409 "USER_ALREADY_EXISTS" (message e)
                    | AuthServiceError _ _ => RespErr 500 "AUTH_SERVICE_ERROR" (message e)
                    | _ => RespErr 500 "SERVER_ERROR" "Internal server error"
                    end), s')
           end.

Definition ctl_login (secret : option string) (d : UserLoginInput) : M Resp :=
  fun s => match login secret d s with
           | (Ok a, s') => (Ok (RespOk 200 (DAuth a)), s')
           | (Err e, s') =>
               (Ok (match e with
                    | InvalidCredentialsError => RespErr 401 "INVALID_CREDENTIALS" (message e)
                    | AuthServiceError _ _ => RespErr 500 "AUTH_SERVICE_ERROR" (message e)
                    | _ => RespErr 500 "SERVER_ERROR" "Internal server error"
                    end), s')
           end.

Definition user_error_resp (e : thrown) : Resp :=
  match e with
  | UserNotFoundError _ => RespErr 404 "USER_NOT_FOUND" (message e)
  | UserAlreadyExistsError _ => RespErr 409 "USER_ALREADY_EXISTS" (message e)
  | UserServiceError _ _ => RespErr 500 "USER_SERVICE_ERROR" (message e)
  | _ => RespErr 500 "SERVER_ERROR" "Internal server error"
  end.

Definition ctl_getAllUsers : M Resp :=
  fun s => match findAll s with
           | (Ok us, s') => (Ok (RespOk 200 (DUsers (map (fun u => excludePassword (user_obj u)) us))), s')
           | (Err e, s') => (Ok (user_error_resp e), s')
           end.

Definition ctl_getUserById (i : string) : M Resp :=
  fun s =>
    if negb (truthy i) then (Ok (RespErr 400 "INVALID_USER_ID" "User ID is required"), s)
    else match findById i s with
         | (Ok None, s') => (Ok (RespErr 404 "USER_NOT_FOUND" ("User with ID " ++ i ++ " not found")), s')
         | (Ok (Some u), s') => (Ok (RespOk 200 (DUser (excludePassword (user_obj u)))), s')
         | (Err e, s') => (Ok (user_error_resp e), s')
         end.

Definition ctl_createUser (d : UserRegistrationInput) : M Resp :=
  fun s => match createUser d s with
           | (Ok u, s') => (Ok (RespOk 201 (DUser (excludePassword (user_obj u)))), s')
           | (Err e, s') => (Ok (user_error_resp e), s')
           end.

Definition ctl_updateUser (i : string) (d : UserUpdateInput) : M Resp :=
  fun s =>
    if negb (truthy i) then (Ok (RespErr 400 "INVALID_USER_ID" "User ID is required"), s)
    else match updateUser i d s with
         | (Ok u, s') => (Ok (RespOk 200 (DUser (excludePassword (user_obj u)))), s')
         | (Err e, s') => (Ok (user_error_resp e), s')
         end.

Definition ctl_deleteUser (i : string) : M Resp :=
  fun s =>
    if negb (truthy i) then (Ok (RespErr 400 "INVALID_USER_ID" "User ID is required"), s)
    else match deleteUser i s with
         | (Ok _, s') => (Ok (RespOk 200 DNone), s')
         | (Err e, s') => (Ok (user_error_resp e), s')
         end.

(** The user objects a response carries. *)
Definition resp_users (r : Resp) : list obj :=
  match r with
  | RespOk _ (DUser u) => [u]
  | RespOk _ (DUsers us) => us
  | RespOk _ (DAuth a) => [auth_user a]
  | _ => []
  end.

(** *** Protected routes: [router.x(path, authenticateToken, handler)] *)

Definition protect (authHeader secret : option string) (handler : M Resp) : M Resp :=
  fun s => match authenticateToken authHeader secret (now s) with
           | MwNext _ => handler s
           | MwFail st c m => (Ok (RespErr st c m), s)
           end.

(** *** [userUpdateSchema] (zod) *)

(** The email format check of [z.string().email()]. *)
Variable email_format_ok : string -> bool.

Definition is_ws (c : ascii) : bool :=
  let n := nat_of_ascii c in ((9 <=? n) && (n <=? 13))%nat || Nat.eqb n 32.

Fixpoint trim_start (s : string) : string :=
  match s with
  | String c r => if is_ws c then trim_start r else s
  | EmptyString => EmptyString
  end.

Definition trim (s : string) : string :=
  string_of_list_ascii (rev (list_ascii_of_string
    (trim_start (string_of_list_ascii (rev (list_ascii_of_string (trim_start s))))))).

Definition in_range (lo hi : nat) (c : ascii) : bool :=
  let n := nat_of_ascii c in ((lo <=? n) && (n <=? hi))%nat.

(** [/^(?=.*[a-z])(?=.*[A-Z])(?=.*\d).{8,}$/]: [.] matches no line break. *)
Definition passwordRegex_test (p : string) : bool :=
  let cs := list_ascii_of_string p in
  existsb (in_range 97 122) cs && existsb (in_range 65 90) cs && existsb (in_range 48 57) cs
  && (8 <=? length cs)%nat
  && forallb (fun c => negb (Nat.eqb (nat_of_ascii c) 10 || Nat.eqb (nat_of_ascii c) 13)) cs.

(** The request body restricted to the schema's keys (zod strips the
    others); [None] is an absent key. *)
Record RawUpdate : Type := mkRaw {
  raw_name : option string; raw_email : option string; raw_password : option string }.

Definition check_name (n : string) : string * list string :=
  let t := trim n in
  (t, app (if (String.length t <? 2)%nat then ["Name must be at least 2 characters long"] else [])
          (if (50 <? String.length t)%nat then ["Name must not exceed 50 characters"] else [])).

Definition check_email (e : string) : string * list string :=
  let t := toLowerCase (trim e) in
  (t, if email_format_ok t then [] else ["Invalid email format"]).

Definition check_password (p : string) : string * list string :=
  (p, app (if (String.length p <? 8)%nat then ["Password must be at least 8 characters long"] else [])
          (if passwordRegex_test p then []
          else ["Password must contain at least one lowercase letter, one uppercase letter, and one digit"])).

Definition check_opt (chk : string -> string * list string) (o : option string)
    : option string * list string :=
  match o with
  | Some v => let (v', is) := chk v in (Some v', is)
  | None => (None, [])
  end.

Definition count_keys (o1 o2 o3 : option string) : nat :=
  length (filter (fun o => match o with Some _ => true | None => false end) [o1; o2; o3]).

Definition userUpdateSchema_parse (r : RawUpdate) : parse_result UserUpdateInput :=
  let (n, i1) := check_opt check_name (raw_name r) in
  let (e, i2) := check_opt check_email (raw_email r) in
  let (p, i3) := check_opt check_password (raw_password r) in
  let refine_issues :=
    if (0 <? count_keys n e p)%nat then [] else ["At least one field must be provided for update"] in
  match (i1 ++ i2 ++ i3 ++ refine_issues)%list with
  | [] => Valid (mkUpd n e p)
  | issues => Invalid issues
  end.

(** *** Section 4.5 of the spec, in its own words *)

(** The kind of a token-verification failure, by what failed. *)
Inductive VerifyKind : Type :=
| VSuccess (p : JWTPayload)
| KExpired
| KInvalid
| KMissingFields
| KMissingSecret
| KOtherError
| KNonError.

Definition verify_kind (secret : option string) (tok : string) (t : nat) : VerifyKind :=
  match secret_ok secret with
  | None => KMissingSecret
  | Some k =>
      if negb (truthy tok) then KOtherError
      else match jwt_verify tok k t with
           | JOk d => if truthy (userId d) && truthy (p_email d) then VSuccess d else KMissingFields
           | JExpired => KExpired
           | JInvalid => KInvalid
           | JRaiseError _ _ => KOtherError
           | JRaiseNonError => KNonError
           end
  end.

Inductive Decision : Type :=
| DProceed (p : JWTPayload)
| DReject (status : nat) (code : string).

Definition decision_of (o : MwOutcome) : Decision :=
  match o with MwNext p => DProceed p | MwFail st c _ => DReject st c end.

(** Steps 1 to 4 of the middleware state machine as the spec states them. *)
Definition authenticateToken_spec (authHeader secret : option string) (t : nat) : Decision :=
  match authHeader with
  | None => DReject 401 "MISSING_TOKEN"
  | Some h =>
      let parts := split_space h in
      if negb (Nat.eqb (length parts) 2 && String.eqb (nth 0 parts "") "Bearer")
      then DReject 401 "INVALID_TOKEN_FORMAT"
      else if negb (truthy (nth 1 parts "")) then DReject 401 "MISSING_TOKEN"
      else match verify_kind secret (nth 1 parts "") t with
           | VSuccess p => DProceed p
           | KExpired => DReject 401 "TOKEN_EXPIRED"
           | KInvalid => DReject 401 "INVALID_TOKEN"
           | KMissingSecret => DReject 500 "SERVER_ERROR"
           | KMissingFields | KOtherError => DReject 401 "INVALID_TOKEN"
           | KNonError => DReject 500 "SERVER_ERROR"
           end
  end.

(** What jsonwebtoken throws besides its own error classes never carries
    the messages the code matches on. *)
Definition jwt_raw_errors_plain : Prop :=
  forall tok k t nm m, jwt_verify tok k t = JRaiseError nm m ->
    m <> "Token expired" /\ m <> "Invalid token" /\ includes m "JWT_SECRET" = false.

(** Stored emails are lowercase: every write goes through a schema that
    lowercases the email. *)
Definition lowercase_store (s : St) : Prop :=
  forall u, In u (users s) -> toLowerCase (email u) = email u.

Definition no_faults : Prop := forall c, flt c = None.

(** Some stored user has the email, compared case-insensitively. *)
Definition present_ci (d : UserRegistrationInput) (s : St) : bool :=
  existsb (fun u => String.eqb (toLowerCase (email u)) (toLowerCase (reg_email d))) (users s).

Definition is_already_exists {A} (r : result A) : bool :=
  match r with Err (UserAlreadyExistsError _) => true | _ => false end.

(** An optional field, when present, is a non-empty string: every
    field the update schema accepts is. *)
Definition opt_truthy (o : option string) : bool :=
  match o with Some v => truthy v | None => true end.

Fixpoint has_space (s : string) : bool :=
  match s with
  | EmptyString => false
  | String c r => Ascii.eqb c " "%char || has_space r
  end.

(** No object of the list has a [password] key. *)
Definition pw_free (os : list obj) : bool :=
  forallb (fun o => negb (has_key "password" o)) os.

(** *** [optionalAuth] *)



(** *** [userRegistrationSchema], [userLoginSchema], [userIdSchema] *)

(** A key of [z.object] that is not [.optional()]: an absent key gives
    zod's [Required] issue. *)
Definition check_req (chk : string -> string * list string) (o : option string)
    : option string * list string :=
  match o with
  | Some v => let (v', is) := chk v in (Some v', is)
  | None => (None, ["Required"])
  end.

(** Request bodies restricted to the schema's keys; [None] is an absent key. *)
Record RawRegistration : Type := mkRawReg {
  rr_name : option string; rr_email : option string; rr_password : option string }.
Record RawLogin : Type := mkRawLogin { rl_email : option string; rl_password : option string }.

Definition userRegistrationSchema_parse (r : RawRegistration)
    : parse_result UserRegistrationInput :=
  let (n, i1) := check_req check_name (rr_name r) in
  let (e, i2) := check_req check_email (rr_email r) in
  let (p, i3) := check_req check_password (rr_password r) in
  match (i1 ++ i2 ++ i3)%list, n, e, p with
  | [], Some n, Some e, Some p => Valid (mkReg n e p)
  | issues, _, _, _ => Invalid issues
  end.

Definition check_login_password (p : string) : string * list string :=
  (p, if (String.length p <? 1)%nat then ["Password is required"] else []).

Definition userLoginSchema_parse (r : RawLogin) : parse_result UserLoginInput :=
  let (e, i1) := check_req check_email (rl_email r) in
  let (p, i2) := check_req check_login_password (rl_password r) in
  match (i1 ++ i2)%list, e, p with
  | [], Some e, Some p => Valid (mkLogin e p)
  | issues, _, _ => Invalid issues
  end.

Definition check_id (i : string) : string * list string :=
  let t := trim i in
  (t, if (String.length t <? 1)%nat then ["User ID is required"] else []).

(** [userIdSchema] on [req.params]: an Express [:id] parameter is always
    present, so the parsed value is the trimmed id. *)
Definition userIdSchema_parse (i : string) : parse_result string :=
  match check_id i with
  | (t, []) => Valid t
  | (_, issues) => Invalid issues
  end.

(** *** [validateRequest] and the routes *)

(** [validateRequest(schema, source)]: on success the parsed value
    replaces the request part and [next()] runs; a [ZodError] is
    answered with 400 (the [details] list of the answer is not kept). *)
Definition validateRequest {A} (parsed : parse_result A) (next : A -> M Resp) : M Resp :=
  fun s => match parsed with
           | Valid v => next v s
           | Invalid _ => (Ok (RespErr 400 "VALIDATION_ERROR" "Request validation failed"), s)
           end.

(** [auth.routes.ts] *)
Definition route_register (secret : option string) (body : RawRegistration) : M Resp :=
  validateRequest (userRegistrationSchema_parse body) (ctl_register secret).

Definition route_login (secret : option string) (body : RawLogin) : M Resp :=
  validateRequest (userLoginSchema_parse body) (ctl_login secret).

(** [user.routes.ts] *)
Definition route_getAllUsers (authHeader secret : option string) : M Resp :=
  protect authHeader secret ctl_getAllUsers.

Definition route_getUserById (authHeader secret : option string) (rawId : string) : M Resp :=
  protect authHeader secret (validateRequest (userIdSchema_parse rawId) ctl_getUserById).

Definition route_createUser (authHeader secret : option string) (body : RawRegistration) : M Resp :=
  protect authHeader secret (validateRequest (userRegistrationSchema_parse body) ctl_createUser).

Definition route_updateUser (authHeader secret : option string) (rawId : string)
    (body : RawUpdate) : M Resp :=
  protect authHeader secret
    (validateRequest (userIdSchema_parse rawId) (fun i =>
       validateRequest (userUpdateSchema_parse body) (ctl_updateUser i))).

Definition route_deleteUser (authHeader secret : option string) (rawId : string) : M Resp :=
  protect authHeader secret (validateRequest (userIdSchema_parse rawId) ctl_deleteUser).

(** *** Effects on the stored data *)

(** Two states hold the same data: the same rows, id counter and clock
    (the call log may differ). *)
Definition same_data (s1 s2 : St) : Prop :=
  users s1 = users s2 /\ next_id s1 = next_id s2 /\ now s1 = now s2.

(** A computation that never changes the stored data. *)
Definition read_only {A} (m : M A) : Prop := forall s, same_data s (snd (m s)).

(** A computation that, when it fails, leaves the rows as they were. *)
Definition atomic {A} (m : M A) : Prop :=
  forall s, match m s with (Err _, s') => users s' = users s | _ => True end.

(** The errors the user service declares. *)
Definition user_service_error (e : thrown) : bool :=
  match e with
  | UserNotFoundError _ | UserAlreadyExistsError _ | UserServiceError _ _ => true
  | _ => false
  end.

(** [a] was created no earlier than [b]: the order of [findMany]. *)
Definition newer_first (a b : User) : Prop := (createdAt b <= createdAt a)%nat.

(** Every exception [m] raises satisfies [P]. *)
Definition throws_only {A} (P : thrown -> Prop) (m : M A) : Prop :=
  forall s, match fst (m s) with Err e => P e | Ok _ => True end.

Definition is_server_error (r : Resp) : bool :=
  match r with
  | RespErr st c _ => Nat.eqb st 500 && String.eqb c "SERVER_ERROR"
  | RespOk _ _ => false
  end.

(** [m] keeps the stored emails lowercase. *)
Definition keeps_lowercase {A} (m : M A) : Prop :=
  forall s, lowercase_store s -> lowercase_store (snd (m s)).

(** ** Proofs *)

(** *** Outward user objects *)

Lemma excludePassword_no_password (o : obj) :
  has_key "password" (excludePassword o) = false.
Proof.
  induction o as [|[k v] o IH]; simpl; [reflexivity|].
  destruct (String.eqb k "password") eqn:E; simpl; [exact IH|].
  rewrite E, IH; reflexivity.
Qed.

Lemma pw_free_map_exclude (us : list User) :
  pw_free (map (fun u => excludePassword (user_obj u)) us) = true.
Proof.
  induction us as [|u us IH]; [reflexivity|].
  (* the head object has concrete keys: the filter computes *)
  exact IH.
Qed.

Lemma register_user_shape (secret : option string) (d : UserRegistrationInput) (s : St) :
  match fst (register secret d s) with
  | Ok a => exists u, auth_user a = excludePassword (user_obj u)
  | Err _ => True
  end.
Proof.
  unfold register, try_catch, bind, lift, get_now, ret, throw.
  destruct (createUser d s) as [[u|e] s1]; simpl.
  - destruct (generateToken secret _ None (now s1)) as [tk|e]; simpl; [eauto|].
    destruct e; exact I.
  - destruct e; exact I.
Qed.

Lemma login_user_shape (secret : option string) (d : UserLoginInput) (s : St) :
  match fst (login secret d s) with
  | Ok a => exists u, auth_user a = excludePassword (user_obj u)
  | Err _ => True
  end.
Proof.
  unfold login, try_catch, bind, lift, get_now, ret, throw.
  destruct (findByEmail (login_email d) s) as [[[u|]|e] s1]; simpl.
  - destruct (verifyPassword (login_password d) (password u) s1) as [[[|]|e] s2]; simpl.
    + destruct (generateToken secret _ None (now s2)) as [tk|e]; simpl; [eauto|].
      destruct e; exact I.
    + exact I.
    + destruct e; exact I.
  - exact I.
  - destruct e; exact I.
Qed.

(** *** Lookups *)

Lemma findByEmail_ok (e : string) (s : St) :
  flt (FindByEmail (toLowerCase e)) = None ->
  findByEmail e s = (Ok (find_email (toLowerCase e) (users s)),
                     log_call (FindByEmail (toLowerCase e)) s).
Proof.
  intros H. unfold findByEmail, prisma_findUnique_email, try_catch, db_call.
  rewrite H. reflexivity.
Qed.

Lemma findByEmail_fault (e : string) (s : St) (f : LibFault) :
  flt (FindByEmail (toLowerCase e)) = Some f ->
  findByEmail e s = (Err (UserServiceError ("Failed to find user by email: " ++ e)
                                           (Some (lib_error f))),
                     log_call (FindByEmail (toLowerCase e)) s).
Proof.
  intros H. unfold findByEmail, prisma_findUnique_email, try_catch, db_call.
  rewrite H. reflexivity.
Qed.

Lemma findById_ok (i : string) (s : St) :
  flt (FindById i) = None ->
  findById i s = (Ok (find_id i (users s)), log_call (FindById i) s).
Proof.
  intros H. unfold findById, prisma_findUnique_id, try_catch, db_call.
  rewrite H. reflexivity.
Qed.

Lemma findById_fails (i : string) (s : St) :
  match fst (findById i s) with
  | Ok _ => True
  | Err e => exists f, flt (FindById i) = Some f /\
             e = UserServiceError ("Failed to find user by ID: " ++ i) (Some (lib_error f))
  end.
Proof.
  unfold findById, prisma_findUnique_id, try_catch, db_call.
  destruct (flt (FindById i)) as [f|]; simpl; eauto.
Qed.

Lemma verifyPassword_ok (pw h : string) (s : St) :
  truthy pw = true -> truthy h = true ->
  verifyPassword pw h s = (Ok (bcrypt_compare pw h), s).
Proof.
  intros Hp Hh. unfold verifyPassword. rewrite Hp, Hh. reflexivity.
Qed.

(** *** Login *)

(** Claim C1: an unregistered email and a registered email with a wrong
    password make [login] raise the very same [InvalidCredentialsError]
    value, and the controller answers both with the same envelope. The
    login schema makes the password non-empty; a stored hash is a bcrypt
    digest, never empty. *)
Theorem login_unknown_email_same_as_wrong_password (secret : option string)
    (s : St) (d1 d2 : UserLoginInput) (u : User) :
  flt (FindByEmail (toLowerCase (login_email d1))) = None ->
  flt (FindByEmail (toLowerCase (login_email d2))) = None ->
  find_email (toLowerCase (login_email d1)) (users s) = None ->
  find_email (toLowerCase (login_email d2)) (users s) = Some u ->
  truthy (login_password d2) = true ->
  truthy (password u) = true ->
  bcrypt_compare (login_password d2) (password u) = false ->
  fst (login secret d1 s) = Err InvalidCredentialsError /\
  fst (login secret d2 s) = Err InvalidCredentialsError /\
  fst (ctl_login secret d1 s) = fst (ctl_login secret d2 s).
Proof.
  intros F1 F2 N1 S2 P1 P2 C.
  assert (L1 : fst (login secret d1 s) = Err InvalidCredentialsError).
  { unfold login, try_catch, bind.
    rewrite (findByEmail_ok _ _ F1), N1. reflexivity. }
  assert (L2 : fst (login secret d2 s) = Err InvalidCredentialsError).
  { unfold login, try_catch, bind.
    rewrite (findByEmail_ok _ _ F2), S2. simpl.
    rewrite (verifyPassword_ok _ _ _ P1 P2), C. reflexivity. }
  split; [exact L1|split; [exact L2|]].
  unfold ctl_login.
  destruct (login secret d1 s) as [r1 s1]; destruct (login secret d2 s) as [r2 s2].
  simpl in L1, L2 |- *. subst r1 r2. reflexivity.
Qed.

(** *** Token verification *)

Lemma verifyToken_not_auth_error (secret : option string) (tok : string) (t : nat) m c :
  verifyToken secret tok t <> Err (AuthServiceError m c).
Proof.
  unfold verifyToken. destruct (secret_ok secret); [|discriminate].
  destruct (negb (truthy tok)); [discriminate|].
  destruct (jwt_verify tok s t); try discriminate.
  destruct (negb (truthy (userId decoded)) || negb (truthy (p_email decoded))); discriminate.
Qed.

(** Claim C7: [isTokenExpired] is [true] exactly when verification fails
    because the token expired, and [false] for a valid token and for every
    other failure (malformed or tampered token, payload without its
    fields, empty token, missing secret, anything else thrown). *)
Theorem isTokenExpired_iff_expired (secret : option string) (tok : string) (t : nat) :
  jwt_raw_errors_plain ->
  isTokenExpired secret tok t =
  match verify_kind secret tok t with KExpired => true | _ => false end.
Proof.
  intros Hraw. unfold isTokenExpired, verifyToken, verify_kind.
  destruct (secret_ok secret) as [k|]; [|reflexivity].
  destruct (truthy tok); simpl; [|reflexivity].
  destruct (jwt_verify tok k t) as [d| | |nm m|] eqn:E; try reflexivity.
  - destruct (truthy (userId d)), (truthy (p_email d)); reflexivity.
  - destruct (Hraw _ _ _ _ _ E) as [Hm _]. simpl.
    apply String.eqb_neq in Hm. rewrite Hm. reflexivity.
Qed.

(** *** Authentication middleware *)

(** Claim C2 (as amended): the middleware follows the state machine of
    section 4.5 of the spec, except that an empty [Authorization] header
    is treated like a missing one ([MISSING_TOKEN], 401). *)
Theorem authenticateToken_state_machine (h secret : option string) (t : nat) :
  jwt_raw_errors_plain ->
  decision_of (authenticateToken h secret t) =
  (if match h with Some x => negb (truthy x) | None => false end
   then DReject 401 "MISSING_TOKEN"
   else authenticateToken_spec h secret t).
Proof.
  intros Hraw. destruct h as [x|]; [|reflexivity].
  unfold authenticateToken, authenticateToken_spec.
  destruct (truthy x); simpl; [|reflexivity].
  destruct (Nat.eqb (length (split_space x)) 2), (String.eqb (nth 0 (split_space x) "") "Bearer");
    simpl; try reflexivity.
  destruct (truthy (nth 1 (split_space x) "")) eqn:T; simpl; [|reflexivity].
  unfold verifyToken, verify_kind. rewrite T. simpl.
  destruct (secret_ok secret) as [k|]; [|reflexivity].
  destruct (jwt_verify (nth 1 (split_space x) "") k t) as [d| | |nm m|] eqn:E; try reflexivity.
  - destruct (truthy (userId d)), (truthy (p_email d)); reflexivity.
  - destruct (Hraw _ _ _ _ _ E) as [H1 [H2 H3]]. simpl.
    apply String.eqb_neq in H1, H2. rewrite H1, H2, H3. reflexivity.
Qed.

(** *** Token validation against the user store *)

(** Claim C5: [validateToken] raises only [AuthServiceError]; a token
    that fails verification gives "Token validation failed" without
    touching the store; a valid token whose user is gone gives
    "User no longer exists"; a valid token whose user exists passes. *)
Theorem validateToken_rechecks_user (secret : option string) (tok : string) (s : St) :
  (match fst (validateToken secret tok s) with
   | Ok _ => True
   | Err e => exists m c, e = AuthServiceError m c
   end) /\
  (forall e, verifyToken secret tok (now s) = Err e ->
     validateToken secret tok s = (Err (AuthServiceError "Token validation failed" (Some e)), s)) /\
  (forall p, verifyToken secret tok (now s) = Ok p ->
     flt (FindById (userId p)) = None -> find_id (userId p) (users s) = None ->
     fst (validateToken secret tok s) = Err (AuthServiceError "User no longer exists" None)) /\
  (forall p u, verifyToken secret tok (now s) = Ok p ->
     flt (FindById (userId p)) = None -> find_id (userId p) (users s) = Some u ->
     fst (validateToken secret tok s) = Ok p).
Proof.
  split; [|split; [|split]].
  - unfold validateToken, try_catch, bind, lift, get_now, ret, throw.
    destruct (verifyToken secret tok (now s)) as [p|e]; simpl.
    + destruct (findById (userId p) s) as [[[u|]|e] s1]; simpl; eauto.
      destruct e; simpl; eauto.
    + destruct e; simpl; eauto.
  - intros e He. unfold validateToken, try_catch, bind, lift, get_now, throw.
    simpl. rewrite He.
    destruct e; try reflexivity.
    exfalso; exact (verifyToken_not_auth_error _ _ _ _ _ He).
  - intros p Hp F N. unfold validateToken, try_catch, bind, lift, get_now, throw, ret.
    simpl. rewrite Hp, (findById_ok _ _ F), N. reflexivity.
  - intros p u Hp F Su. unfold validateToken, try_catch, bind, lift, get_now, throw, ret.
    simpl. rewrite Hp, (findById_ok _ _ F), Su. reflexivity.
Qed.

(** *** Inversion of the monad *)

Lemma bind_ok_inv {A B} (m : M A) (k : A -> M B) (s : St) (b : B) (s' : St) :
  bind m k s = (Ok b, s') -> exists a s1, m s = (Ok a, s1) /\ k a s1 = (Ok b, s').
Proof.
  unfold bind. destruct (m s) as [[a|e] s1]; intros H; [eauto|discriminate].
Qed.

Lemma try_catch_ok_inv {A} (m : M A) (h : thrown -> M A) (s : St) (a : A) (s' : St) :
  (forall e s0, exists e', h e s0 = (Err e', s0)) ->
  try_catch m h s = (Ok a, s') -> m s = (Ok a, s').
Proof.
  intros Hh. unfold try_catch. destruct (m s) as [[x|e] s1]; intros H; [exact H|].
  destruct (Hh e s1) as [e' He]. rewrite He in H. discriminate.
Qed.

Ltac handler_throws :=
  let e := fresh "e" in
  intros e ?; destruct e;
  repeat match goal with |- context [if ?b then _ else _] => destruct b end;
  eexists; reflexivity.

Lemma find_id_In (i : string) (us : list User) (u : User) :
  In u us -> id u = i -> exists v, find_id i us = Some v.
Proof.
  intros Hin Hid. induction us as [|x us IH]; [destruct Hin|].
  unfold find_id; simpl. destruct (String.eqb (id x) i) eqn:E; [eauto|].
  destruct Hin as [->|Hin]; [|exact (IH Hin)].
  rewrite Hid, String.eqb_refl in E. discriminate.
Qed.

Lemma find_id_filter_none (i : string) (us : list User) :
  find_id i (filter (fun r => negb (String.eqb (id r) i)) us) = None.
Proof.
  induction us as [|x us IH]; [reflexivity|].
  simpl. destruct (String.eqb (id x) i) eqn:E; simpl; [exact IH|].
  unfold find_id in *; simpl. rewrite E. exact IH.
Qed.

(** *** Deletion *)

(** Claim C8: [deleteUser] raises [UserNotFoundError] exactly when Prisma
    reports P2025 and [UserServiceError] for any other storage failure;
    without infrastructure failures, deleting a missing id gives
    [UserNotFoundError], and deleting an existing user twice succeeds and
    then gives [UserNotFoundError]. *)
Theorem deleteUser_outcomes (i : string) (s : St) :
  (match fst (prisma_delete i s) with
   | Ok _ => fst (deleteUser i s) = Ok tt
   | Err pe => fst (deleteUser i s) =
               if code_is pe "P2025" then Err (UserNotFoundError i)
               else Err (UserServiceError ("Failed to delete user: " ++ i) (Some pe))
   end) /\
  (no_faults -> find_id i (users s) = None ->
     fst (deleteUser i s) = Err (UserNotFoundError i)) /\
  (no_faults -> forall u, find_id i (users s) = Some u ->
     fst (deleteUser i s) = Ok tt /\
     fst (deleteUser i (snd (deleteUser i s))) = Err (UserNotFoundError i)).
Proof.
  split; [|split].
  - unfold deleteUser, try_catch.
    destruct (prisma_delete i s) as [[[]|pe] s1]; simpl; [reflexivity|].
    destruct (code_is pe "P2025"); reflexivity.
  - intros NF N. unfold deleteUser, prisma_delete, try_catch, db_call.
    rewrite (NF (Delete i)). simpl. rewrite N. reflexivity.
  - intros NF u Su. unfold deleteUser, prisma_delete, try_catch, db_call.
    rewrite (NF (Delete i)). simpl. rewrite Su. split; [reflexivity|].
    simpl. rewrite find_id_filter_none. reflexivity.
Qed.

(** *** Registration *)

Lemma createUser_ok_inv (d : UserRegistrationInput) (s : St) (u : User) (s1 : St) :
  createUser d s = (Ok u, s1) ->
  users s1 = (users s ++ [u])%list /\ email u = reg_email d /\ name u = reg_name d /\
  now s1 = now s.
Proof.
  intros H. apply try_catch_ok_inv in H; [|handler_throws].
  apply bind_ok_inv in H. destruct H as [ex [s2 [H1 H2]]].
  unfold findByEmail, prisma_findUnique_email, try_catch, db_call in H1.
  destruct (flt (FindByEmail (toLowerCase (reg_email d)))); [discriminate|].
  injection H1 as <- <-. simpl in H2.
  destruct (find_email (toLowerCase (reg_email d)) (users s)); [discriminate|].
  apply bind_ok_inv in H2. destruct H2 as [h [s3 [H3 H4]]].
  unfold hashPassword, ret, throw in H3.
  destruct (negb (truthy (reg_password d))); [discriminate|].
  injection H3 as <- <-.
  unfold prisma_create, db_call in H4. simpl in H4.
  destruct (flt (Create (reg_email d))); [discriminate|].
  destruct (existsb _ (users s)); [discriminate|].
  injection H4 as <- <-. simpl. auto.
Qed.

Lemma generateToken_err (secret : option string) (p : JWTPayload) (x : option string)
    (t : nat) (e : thrown) :
  generateToken secret p x t = Err e -> exists m, e = PlainError m.
Proof.
  unfold generateToken. destruct (secret_ok secret); [|intros H; injection H as <-; eauto].
  destruct (negb (truthy (userId p)) || negb (truthy (p_email p)));
    intros H; [injection H as <-; eauto|discriminate].
Qed.

(** Claim C10: when the user is created but the token cannot be issued
    (secret missing, or the new user's id or email empty), [register]
    raises [AuthServiceError "Registration failed"] and the created user
    stays in the store. *)
Theorem register_not_atomic (secret : option string) (d : UserRegistrationInput)
    (s : St) (u : User) (s1 : St) :
  createUser d s = (Ok u, s1) ->
  secret_ok secret = None \/ truthy (id u) = false \/ truthy (email u) = false ->
  exists e, register secret d s = (Err (AuthServiceError "Registration failed" (Some e)), s1) /\
            In u (users s1).
Proof.
  intros Hc Hfail.
  destruct (createUser_ok_inv _ _ _ _ Hc) as [Hus _].
  assert (Hg : exists e, generateToken secret (mkPayload (id u) (email u)) None (now s1) = Err e).
  { unfold generateToken. simpl.
    destruct Hfail as [-> | [-> | ->]]; [eauto|..];
      destruct (secret_ok secret); simpl; eauto;
      rewrite ?orb_true_r; simpl; eauto. }
  destruct Hg as [e He]. exists e. split.
  - unfold register, try_catch, bind, lift, get_now. rewrite Hc. simpl. rewrite He.
    destruct (generateToken_err _ _ _ _ _ He) as [m ->]. reflexivity.
  - rewrite Hus. apply in_or_app. right. left. reflexivity.
Qed.

(** *** The middleware and the user store *)

Lemma split_space_no_space (x : string) :
  has_space x = false -> split_space x = [x].
Proof.
  induction x as [|c r IH]; simpl; [reflexivity|].
  intros H. apply orb_false_iff in H. destruct H as [Hc Hr].
  rewrite Hc, (IH Hr). reflexivity.
Qed.

Lemma split_bearer (tok : string) :
  has_space tok = false -> split_space ("Bearer " ++ tok) = ["Bearer"; tok].
Proof.
  intros H. simpl. rewrite (split_space_no_space _ H). reflexivity.
Qed.

(** Claim C9: the middleware decides from the header, the secret and the
    clock alone: on two stores at the same time a protected route either
    rejects both with the same response or hands both to the handler. So
    after a user is deleted, a valid unexpired token naming that user
    still passes the middleware, while [validateToken] would reject it. *)
Theorem middleware_ignores_user_store :
  (forall (h secret : option string) (handler : M Resp) (s1 s2 : St),
     now s1 = now s2 ->
     (exists r, protect h secret handler s1 = (Ok r, s1) /\
                protect h secret handler s2 = (Ok r, s2)) \/
     (protect h secret handler s1 = handler s1 /\
      protect h secret handler s2 = handler s2)) /\
  (forall (k tok : string) (p : JWTPayload) (u : User) (s : St),
     truthy k = true -> truthy tok = true -> has_space tok = false ->
     In u (users s) -> flt (Delete (id u)) = None -> flt (FindById (id u)) = None ->
     jwt_verify tok k (now s) = JOk p -> userId p = id u ->
     truthy (id u) = true -> truthy (p_email p) = true ->
     let s' := snd (deleteUser (id u) s) in
     fst (deleteUser (id u) s) = Ok tt /\
     authenticateToken (Some ("Bearer " ++ tok)) (Some k) (now s') = MwNext p /\
     (forall handler : M Resp,
        protect (Some ("Bearer " ++ tok)) (Some k) handler s' = handler s') /\
     fst (validateToken (Some k) tok s') = Err (AuthServiceError "User no longer exists" None)).
Proof.
  split.
  - intros h secret handler s1 s2 Hn. unfold protect. rewrite Hn.
    destruct (authenticateToken h secret (now s2)); [right|left]; eauto.
  - intros k tok p u s Hk Ht Hsp Hin Fd Ff Hv Hp Hid He s'.
    destruct (find_id_In (id u) (users s) u Hin eq_refl) as [v Hf].
    assert (Hdel : deleteUser (id u) s =
      (Ok tt, set_users (log_call (Delete (id u)) s)
                 (filter (fun r => negb (String.eqb (id r) (id u))) (users s)))).
    { unfold deleteUser, prisma_delete, try_catch, db_call. rewrite Fd. simpl.
      rewrite Hf. reflexivity. }
    assert (Hnow : now s' = now s) by (unfold s'; rewrite Hdel; reflexivity).
    assert (Hver : verifyToken (Some k) tok (now s) = Ok p).
    { unfold verifyToken, secret_ok. rewrite Hk. simpl. rewrite Ht. simpl.
      rewrite Hv, Hp, Hid, He. reflexivity. }
    assert (Hmw : authenticateToken (Some ("Bearer " ++ tok)) (Some k) (now s') = MwNext p).
    { unfold authenticateToken. rewrite (split_bearer _ Hsp). simpl.
      rewrite Ht. simpl. rewrite Hnow, Hver. reflexivity. }
    split; [rewrite Hdel; reflexivity|].
    split; [exact Hmw|].
    split.
    + intros handler. unfold protect. rewrite Hmw. reflexivity.
    + unfold validateToken, try_catch, bind, lift, get_now, throw, ret.
      rewrite Hnow, Hver. rewrite <- Hp in Ff.
      rewrite (findById_ok _ _ Ff).
      unfold s'. rewrite Hdel. simpl. rewrite Hp, find_id_filter_none. reflexivity.
Qed.

(** *** User creation *)

Lemma find_some_of_In {A} (f : A -> bool) (l : list A) (x : A) :
  In x l -> f x = true -> exists y, find f l = Some y.
Proof.
  induction l as [|a l IH]; simpl; [intros []|].
  intros [->|Hin] Hf; [rewrite Hf; eauto|].
  destruct (f a); eauto.
Qed.

Lemma register_ok_inv (secret : option string) (d : UserRegistrationInput) (s : St)
    (a : AuthResponse) (s1 : St) :
  register secret d s = (Ok a, s1) -> exists u, createUser d s = (Ok u, s1).
Proof.
  intros H. apply try_catch_ok_inv in H; [|handler_throws].
  apply bind_ok_inv in H. destruct H as [u [s2 [Hc Hk]]].
  exists u. rewrite Hc.
  unfold bind, get_now, lift, ret in Hk.
  destruct (generateToken secret _ None (now s2)); [|discriminate].
  injection Hk as _ <-. reflexivity.
Qed.

(** Claim C4: on a store whose emails are lowercase (as every write path
    stores them), without infrastructure failures [createUser] raises
    [UserAlreadyExistsError] exactly when a stored email equals the new
    one up to case; a unique-constraint violation (P2002) reported by the
    storage layer is raised as [UserAlreadyExistsError] too; any other
    storage failure, in the lookup or in the insert, becomes
    [UserServiceError "Failed to create user"] wrapping the cause; and a
    second registration with the same email fails with
    [UserAlreadyExistsError]. *)
Theorem createUser_already_exists (s : St) (d : UserRegistrationInput) :
  (no_faults -> lowercase_store s ->
     is_already_exists (fst (createUser d s)) = present_ci d s /\
     (present_ci d s = true -> fst (createUser d s) = Err (UserAlreadyExistsError (reg_email d)))) /\
  (forall f, flt (FindByEmail (toLowerCase (reg_email d))) = None ->
     find_email (toLowerCase (reg_email d)) (users s) = None ->
     truthy (reg_password d) = true ->
     flt (Create (reg_email d)) = Some f ->
     (lf_code f = Some "P2002" -> fst (createUser d s) = Err (UserAlreadyExistsError (reg_email d))) /\
     (lf_code f <> Some "P2002" ->
        fst (createUser d s) = Err (UserServiceError "Failed to create user" (Some (lib_error f))))) /\
  (forall f, flt (FindByEmail (toLowerCase (reg_email d))) = Some f ->
     fst (createUser d s) =
     Err (UserServiceError "Failed to create user"
            (Some (UserServiceError ("Failed to find user by email: " ++ reg_email d)
                                    (Some (lib_error f)))))) /\
  (forall secret d' a s1, no_faults ->
     toLowerCase (reg_email d) = reg_email d ->
     toLowerCase (reg_email d') = reg_email d ->
     register secret d s = (Ok a, s1) ->
     fst (register secret d' s1) = Err (UserAlreadyExistsError (reg_email d'))).
Proof.
  split; [|split; [|split]].
  - intros NF LS. unfold createUser, try_catch, bind.
    rewrite (findByEmail_ok _ _ (NF _)).
    destruct (find_email (toLowerCase (reg_email d)) (users s)) as [x|] eqn:F; simpl.
    + assert (P : present_ci d s = true).
      { apply find_some in F. destruct F as [Hin Hx].
        apply existsb_exists. exists x. split; [exact Hin|].
        rewrite (LS x Hin). exact Hx. }
      rewrite P. split; reflexivity.
    + pose proof (find_none _ _ F) as Hn.
      assert (P : present_ci d s = false).
      { apply not_true_is_false. intros Hp. apply existsb_exists in Hp.
        destruct Hp as [x [Hin Hx]]. specialize (Hn x Hin). simpl in Hn.
        rewrite (LS x Hin) in Hx. rewrite Hx in Hn. discriminate. }
      rewrite P.
      unfold hashPassword, ret, throw.
      destruct (negb (truthy (reg_password d))); simpl; [split; [reflexivity|discriminate]|].
      unfold prisma_create, db_call. rewrite (NF _). simpl.
      assert (Ex : existsb (fun u => String.eqb (email u) (reg_email d)) (users s) = false).
      { apply not_true_is_false. intros He. apply existsb_exists in He.
        destruct He as [x [Hin Hx]]. apply String.eqb_eq in Hx.
        specialize (Hn x Hin). simpl in Hn.
        rewrite <- Hx, (LS x Hin), String.eqb_refl in Hn. discriminate. }
      rewrite Ex. split; [reflexivity|discriminate].
  - intros f F1 N Hpw F2. unfold createUser, try_catch, bind.
    rewrite (findByEmail_ok _ _ F1), N. simpl.
    unfold hashPassword, ret. rewrite Hpw. simpl.
    unfold prisma_create, db_call. rewrite F2. simpl.
    unfold code_is, lib_error; simpl.
    split.
    + intros ->. reflexivity.
    + intros Hc. destruct (lf_code f) as [c|] eqn:Ec; [|reflexivity].
      destruct (String.eqb c "P2002") eqn:E; [|reflexivity].
      apply String.eqb_eq in E. subst c. contradiction.
  - intros f F1. unfold createUser, try_catch, bind.
    rewrite (findByEmail_fault _ _ _ F1). reflexivity.
  - intros secret d' a s1 NF Ld Ld' Hr.
    destruct (register_ok_inv _ _ _ _ _ Hr) as [u Hc].
    destruct (createUser_ok_inv _ _ _ _ Hc) as [Hus [Hem _]].
    assert (Hfind : exists y, find_email (toLowerCase (reg_email d')) (users s1) = Some y).
    { apply (find_some_of_In _ _ u).
      - rewrite Hus. apply in_or_app. right. left. reflexivity.
      - rewrite Hem, Ld'. apply String.eqb_refl. }
    destruct Hfind as [y Hy].
    unfold register, createUser, try_catch, bind.
    rewrite (findByEmail_ok _ _ (NF _)), Hy. reflexivity.
Qed.

(** *** Update *)

Lemma supplied_id (o : option string) : opt_truthy o = true -> supplied o = o.
Proof. destruct o as [v|]; simpl; [|reflexivity]. intros ->. reflexivity. Qed.

Lemma find_id_map_update (i : string) (f : User -> User) (us : list User) (u : User) :
  (forall r, id (f r) = id r) ->
  find_id i us = Some u ->
  find_id i (map (fun r => if String.eqb (id r) i then f r else r) us) = Some (f u).
Proof.
  intros Hf. induction us as [|x us IH]; [discriminate|].
  unfold find_id in *; simpl.
  destruct (String.eqb (id x) i) eqn:E.
  - intros H. injection H as <-. simpl. rewrite Hf, E. reflexivity.
  - intros H. simpl. rewrite E. exact (IH H).
Qed.

Lemma existsb_clash_false (i e : string) (us : list User) :
  (forall r, In r us -> id r <> i -> email r <> e) ->
  existsb (fun r => negb (String.eqb (id r) i) && String.eqb (email r) e) us = false.
Proof.
  intros H. apply not_true_is_false. intros Hx. apply existsb_exists in Hx.
  destruct Hx as [r [Hin Hr]]. apply andb_true_iff in Hr. destruct Hr as [Hid Hem].
  apply negb_true_iff, String.eqb_neq in Hid. apply String.eqb_eq in Hem.
  exact (H r Hin Hid Hem).
Qed.

(** Claim C6: [updateUser] changes only the supplied fields of the user
    (a supplied password is stored re-hashed; id and creation time stay);
    an update whose only field is the user's current email succeeds with
    no email lookup (the Prisma calls are the id lookup and the update);
    an update body with no field is rejected by [userUpdateSchema] with
    its "at least one field" message. *)
Theorem updateUser_partial (i : string) (d : UserUpdateInput) (s : St) :
  (forall u u' s', find_id i (users s) = Some u ->
     opt_truthy (upd_name d) = true -> opt_truthy (upd_email d) = true ->
     opt_truthy (upd_password d) = true ->
     updateUser i d s = (Ok u', s') ->
     id u' = id u /\
     name u' = match upd_name d with Some n => n | None => name u end /\
     email u' = match upd_email d with Some e => e | None => email u end /\
     password u' = match upd_password d with Some p => bcrypt_hash p | None => password u end /\
     createdAt u' = createdAt u /\
     find_id i (users s') = Some u') /\
  (forall u, find_id i (users s) = Some u -> flt (FindById i) = None -> flt (Update i) = None ->
     truthy (email u) = true ->
     (forall r, In r (users s) -> id r <> i -> email r <> email u) ->
     fst (updateUser i (mkUpd None (Some (email u)) None) s) =
       Ok (apply_update (mkUpdateData None (Some (email u)) None) (now s) u) /\
     calls (snd (updateUser i (mkUpd None (Some (email u)) None) s)) =
       Update i :: FindById i :: calls s) /\
  userUpdateSchema_parse (mkRaw None None None) =
    Invalid ["At least one field must be provided for update"].
Proof.
  split; [|split].
  - intros u u' s' Fu Hn He Hp H.
    unfold updateUser in H.
    rewrite (supplied_id _ Hn), (supplied_id _ He), (supplied_id _ Hp) in H.
    apply try_catch_ok_inv in H; [|handler_throws].
    apply bind_ok_inv in H. destruct H as [ex [s2 [H1 H2]]].
    unfold findById, prisma_findUnique_id, try_catch, db_call in H1.
    destruct (flt (FindById i)); [discriminate|].
    injection H1 as <- <-. simpl in H2. rewrite Fu in H2.
    apply bind_ok_inv in H2. destruct H2 as [x [s3 [H3 H4]]].
    assert (Hs3 : users s3 = users s /\ now s3 = now s).
    { destruct (upd_email d) as [e|].
      - destruct (negb (String.eqb e (email u))).
        + apply bind_ok_inv in H3. destruct H3 as [ee [s4 [H5 H6]]].
          unfold findByEmail, prisma_findUnique_email, try_catch, db_call in H5.
          destruct (flt (FindByEmail (toLowerCase e))); [discriminate|].
          injection H5 as <- <-.
          destruct (find_email (toLowerCase e) _); [discriminate|].
          injection H6 as _ <-. split; reflexivity.
        + injection H3 as _ <-. split; reflexivity.
      - injection H3 as _ <-. split; reflexivity. }
    destruct Hs3 as [Hu3 Hn3].
    apply bind_ok_inv in H4. destruct H4 as [data [s5 [H5 H6]]].
    assert (Hd : data = mkUpdateData (upd_name d) (upd_email d)
                   (match upd_password d with Some p => Some (bcrypt_hash p) | None => None end)
                 /\ s5 = s3).
    { destruct (upd_password d) as [p|].
      - simpl in Hp. apply bind_ok_inv in H5. destruct H5 as [h [s6 [H7 H8]]].
        unfold hashPassword in H7. rewrite Hp in H7. simpl in H7.
        injection H7 as <- <-. injection H8 as <- <-. split; reflexivity.
      - injection H5 as <- <-. split; reflexivity. }
    destruct Hd as [-> ->].
    unfold prisma_update, db_call in H6.
    destruct (flt (Update i)); [discriminate|].
    simpl in H6. rewrite Hu3, Fu in H6.
    destruct (match upd_email d with
              | Some e => existsb _ (users s)
              | None => false end); [discriminate|].
    injection H6 as <- <-. simpl.
    repeat split; try reflexivity.
    + destruct (upd_password d); reflexivity.
    + apply find_id_map_update; [reflexivity|exact Fu].
  - intros u Fu F1 F2 Te Hu.
    unfold updateUser, try_catch, bind. simpl.
    rewrite (findById_ok _ _ F1), Fu. simpl. rewrite Te. simpl.
    rewrite String.eqb_refl. simpl.
    unfold prisma_update, db_call. rewrite F2. simpl. rewrite Fu.
    rewrite (existsb_clash_false _ _ _ Hu). simpl. split; reflexivity.
  - reflexivity.
Qed.

(** Claim C3: the user object returned by register, and every user object
    sent by register, login, get, list, create and update, has no
    [password] key. *)
Theorem outward_users_have_no_password (secret : option string)
    (d : UserRegistrationInput) (dl : UserLoginInput) (i : string)
    (du : UserUpdateInput) (s : St) :
  (match fst (register secret d s) with
   | Ok a => has_key "password" (auth_user a) = false | Err _ => True end) /\
  (match fst (login secret dl s) with
   | Ok a => has_key "password" (auth_user a) = false | Err _ => True end) /\
  Forall (fun r : (result Resp * St)%type =>
            match fst r with Ok resp => pw_free (resp_users resp) = true | Err _ => True end)
    [ctl_register secret d s; ctl_login secret dl s; ctl_getAllUsers s;
     ctl_getUserById i s; ctl_createUser d s; ctl_updateUser i du s].
Proof.
  pose proof (register_user_shape secret d s) as HR.
  pose proof (login_user_shape secret dl s) as HL.
  split; [|split].
  - destruct (fst (register secret d s)); [|exact I].
    destruct HR as [u ->]; apply excludePassword_no_password.
  - destruct (fst (login secret dl s)); [|exact I].
    destruct HL as [u ->]; apply excludePassword_no_password.
  - repeat constructor.
    + unfold ctl_register.
      destruct (register secret d s) as [[a|e] s1] eqn:E; simpl in *.
      * destruct HR as [u Hu]. simpl. rewrite Hu. reflexivity.
      * destruct e; reflexivity.
    + unfold ctl_login.
      destruct (login secret dl s) as [[a|e] s1] eqn:E; simpl in *.
      * destruct HL as [u Hu]. simpl. rewrite Hu. reflexivity.
      * destruct e; reflexivity.
    + unfold ctl_getAllUsers.
      destruct (findAll s) as [[us|e] s1]; simpl; [apply pw_free_map_exclude|].
      destruct e; reflexivity.
    + unfold ctl_getUserById.
      destruct (truthy i); simpl; [|reflexivity].
      destruct (findById i s) as [[[u|]|e] s1]; simpl.
      * reflexivity.
      * reflexivity.
      * destruct e; reflexivity.
    + unfold ctl_createUser.
      destruct (createUser d s) as [[u|e] s1]; simpl.
      * reflexivity.
      * destruct e; reflexivity.
    + unfold ctl_updateUser.
      destruct (truthy i); simpl; [|reflexivity].
      destruct (updateUser i du s) as [[u|e] s1]; simpl.
      * reflexivity.
      * destruct e; reflexivity.
Qed.

(** ** Further properties of the code *)

(** *** Strings *)

Lemma lower_ascii_idem (c : ascii) : lower_ascii (lower_ascii c) = lower_ascii c.
Proof. destruct c as [[] [] [] [] [] [] [] []]; reflexivity. Qed.

Lemma toLowerCase_idem (x : string) : toLowerCase (toLowerCase x) = toLowerCase x.
Proof.
  induction x as [|c r IH]; simpl; [reflexivity|].
  rewrite lower_ascii_idem, IH. reflexivity.
Qed.

Lemma split_space_not_nil (x : string) : split_space x <> [].
Proof.
  destruct x as [|c r]; simpl; [discriminate|].
  destruct (Ascii.eqb c " "%char); [discriminate|].
  destruct (split_space r); discriminate.
Qed.

(** [h.split(' ').join(' ') === h], and no piece contains a space. *)
Lemma split_space_join (x : string) :
  String.concat " " (split_space x) = x /\ Forall (fun p => has_space p = false) (split_space x).
Proof.
  induction x as [|c r IH]; simpl; [split; [reflexivity|repeat constructor]|].
  destruct IH as [IHj IHf].
  destruct (Ascii.eqb c " "%char) eqn:E.
  - apply Ascii.eqb_eq in E. subst c. split; [|constructor; [reflexivity|exact IHf]].
    destruct (split_space r) as [|p ps] eqn:Hs; [exfalso; exact (split_space_not_nil r Hs)|].
    simpl. rewrite <- IHj. reflexivity.
  - destruct (split_space r) as [|p ps] eqn:Hs; [exfalso; exact (split_space_not_nil r Hs)|].
    apply Forall_cons_iff in IHf as [Hp Hps].
    split.
    + destruct ps as [|q qs]; simpl in *; rewrite <- IHj; reflexivity.
    + constructor; [simpl; rewrite E, Hp; reflexivity|exact Hps].
Qed.

Lemma has_space_app (a b : string) : has_space (a ++ b) = has_space a || has_space b.
Proof.
  induction a as [|c r IH]; simpl; [reflexivity|]. rewrite IH, orb_assoc. reflexivity.
Qed.

(** *** Read-only computations *)

Lemma same_data_refl (s : St) : same_data s s.
Proof. repeat split. Qed.

Lemma same_data_trans (s1 s2 s3 : St) :
  same_data s1 s2 -> same_data s2 s3 -> same_data s1 s3.
Proof. intros (?&?&?) (?&?&?). repeat split; congruence. Qed.

Lemma read_only_ret {A} (a : A) : read_only (ret a).
Proof. intros s. apply same_data_refl. Qed.

Lemma read_only_throw {A} (e : thrown) : read_only (A := A) (throw e).
Proof. intros s. apply same_data_refl. Qed.

Lemma read_only_lift {A} (r : result A) : read_only (lift r).
Proof. intros s. apply same_data_refl. Qed.

Lemma read_only_get_now : read_only get_now.
Proof. intros s. apply same_data_refl. Qed.

Lemma read_only_bind {A B} (m : M A) (k : A -> M B) :
  read_only m -> (forall a, read_only (k a)) -> read_only (bind m k).
Proof.
  intros Hm Hk s. unfold bind. specialize (Hm s).
  destruct (m s) as [[a|e] s1]; simpl in *; [|exact Hm].
  exact (same_data_trans _ _ _ Hm (Hk a s1)).
Qed.

Lemma read_only_try_catch {A} (m : M A) (h : thrown -> M A) :
  read_only m -> (forall e, read_only (h e)) -> read_only (try_catch m h).
Proof.
  intros Hm Hh s. unfold try_catch. specialize (Hm s).
  destruct (m s) as [[a|e] s1]; simpl in *; [exact Hm|].
  exact (same_data_trans _ _ _ Hm (Hh e s1)).
Qed.

Lemma read_only_db_call {A} (c : DbCall) (body : M A) :
  read_only body -> read_only (db_call c body).
Proof.
  intros Hb s. unfold db_call.
  assert (H0 : same_data s (log_call c s)) by (repeat split).
  destruct (flt c); [exact H0|exact (same_data_trans _ _ _ H0 (Hb _))].
Qed.

Ltac read_only_solve :=
  repeat match goal with
  | |- read_only (bind _ _) => apply read_only_bind; [|intros ?]
  | |- read_only (try_catch _ _) => apply read_only_try_catch; [|intros ?]
  | |- read_only (db_call _ _) => apply read_only_db_call
  | |- read_only (ret _) => apply read_only_ret
  | |- read_only (throw _) => apply read_only_throw
  | |- read_only (lift _) => apply read_only_lift
  | |- read_only get_now => apply read_only_get_now
  | |- read_only (match ?x with _ => _ end) => destruct x
  | |- read_only (fun s => (_, s)) => intros ?; apply same_data_refl
  end.

Lemma findById_read_only (i : string) : read_only (findById i).
Proof. unfold findById, prisma_findUnique_id. read_only_solve. Qed.

Lemma findByEmail_read_only (e : string) : read_only (findByEmail e).
Proof. unfold findByEmail, prisma_findUnique_email. read_only_solve. Qed.

(** *** Atomic computations *)

Lemma atomic_of_read_only {A} (m : M A) : read_only m -> atomic m.
Proof.
  intros Hm s. specialize (Hm s). destruct (m s) as [[a|e] s1]; [exact I|].
  destruct Hm as [Hu _]. symmetry. exact Hu.
Qed.

Lemma atomic_bind {A B} (m : M A) (k : A -> M B) :
  read_only m -> (forall a, atomic (k a)) -> atomic (bind m k).
Proof.
  intros Hm Hk s. unfold bind. specialize (Hm s).
  destruct (m s) as [[a|e] s1] eqn:E; simpl in *.
  - specialize (Hk a s1). destruct (k a s1) as [[b|e'] s2]; [exact I|].
    destruct Hm as [Hu _]. congruence.
  - destruct Hm as [Hu _]. congruence.
Qed.

Lemma atomic_try_catch {A} (m : M A) (h : thrown -> M A) :
  atomic m -> (forall e, read_only (h e)) -> atomic (try_catch m h).
Proof.
  intros Hm Hh s. unfold try_catch. specialize (Hm s).
  destruct (m s) as [[a|e] s1]; [exact I|].
  specialize (Hh e s1). destruct (h e s1) as [[b|e'] s2]; [exact I|].
  destruct Hh as [Hu _]. simpl in Hu. congruence.
Qed.

Lemma atomic_db_call {A} (c : DbCall) (body : M A) :
  atomic body -> atomic (db_call c body).
Proof.
  intros Hb s. unfold db_call. destruct (flt c); [reflexivity|].
  specialize (Hb (log_call c s)). destruct (body (log_call c s)) as [[a|e] s1]; [exact I|].
  exact Hb.
Qed.

Lemma atomic_prisma_create (nm em pw : string) : atomic (prisma_create nm em pw).
Proof.
  unfold prisma_create. apply atomic_db_call. intros s.
  destruct (existsb _ _); simpl; [reflexivity|exact I].
Qed.

Lemma atomic_prisma_update (i : string) (d : UpdateData) : atomic (prisma_update i d).
Proof.
  unfold prisma_update. apply atomic_db_call. intros s.
  destruct (find_id i (users s)); [|reflexivity].
  destruct (match ud_email d with Some e => _ | None => false end); simpl; [reflexivity|exact I].
Qed.

Lemma atomic_prisma_delete (i : string) : atomic (prisma_delete i).
Proof.
  unfold prisma_delete. apply atomic_db_call. intros s.
  destruct (find_id i (users s)); simpl; [exact I|reflexivity].
Qed.

Lemma throws_only_try_catch {A} (P : thrown -> Prop) (m : M A) (h : thrown -> M A) :
  (forall e, throws_only P (h e)) -> throws_only P (try_catch m h).
Proof.
  intros Hh s. unfold try_catch. destruct (m s) as [[a|e] s1]; [exact I|]. apply Hh.
Qed.

Lemma throws_only_throw {A} (P : thrown -> Prop) (e : thrown) :
  P e -> throws_only (A := A) P (throw e).
Proof. intros He s. exact He. Qed.

Lemma insert_desc_perm (u : User) (us : list User) : Permutation (insert_desc u us) (u :: us).
Proof.
  induction us as [|v r IH]; simpl; [reflexivity|].
  destruct (createdAt v <? createdAt u)%nat; [reflexivity|].
  rewrite IH. apply perm_swap.
Qed.

Lemma insert_desc_sorted (u : User) (us : list User) :
  Sorted newer_first us -> Sorted newer_first (insert_desc u us).
Proof.
  induction us as [|v r IH]; simpl; intros H; [repeat constructor|].
  destruct (createdAt v <? createdAt u)%nat eqn:E.
  - apply Nat.ltb_lt in E. constructor; [exact H|]. constructor. unfold newer_first. lia.
  - apply Nat.ltb_ge in E. apply Sorted_inv in H as [Hr Hh]. constructor; [exact (IH Hr)|].
    destruct r as [|w r']; simpl; [constructor; unfold newer_first; lia|].
    destruct (createdAt w <? createdAt u)%nat; constructor; [unfold newer_first; lia|].
    inversion Hh; assumption.
Qed.

Lemma sort_desc_spec (us : list User) :
  Permutation (sort_desc us) us /\ Sorted newer_first (sort_desc us).
Proof.
  induction us as [|u r [IHp IHs]]; simpl; [split; constructor|].
  split; [|exact (insert_desc_sorted _ _ IHs)].
  rewrite insert_desc_perm. apply perm_skip. exact IHp.
Qed.

(** Finding users, listing them, logging in and validating a token never
    change the stored rows, the id counter or the clock: only the log of
    database calls grows. *)
Theorem queries_read_only (secret : option string) (i e tok : string) (dl : UserLoginInput) :
  read_only (findById i) /\ read_only (findByEmail e) /\ read_only findAll /\
  read_only (login secret dl) /\ read_only (validateToken secret tok).
Proof.
  split; [apply findById_read_only|]. split; [apply findByEmail_read_only|].
  split; [unfold findAll, prisma_findMany; read_only_solve|].
  split.
  - unfold login, verifyPassword. apply read_only_try_catch; [|intros ?; read_only_solve].
    apply read_only_bind; [apply findByEmail_read_only|]. intros found.
    read_only_solve.
  - unfold validateToken. apply read_only_try_catch; [|intros ?; read_only_solve].
    read_only_solve. apply findById_read_only.
Qed.

(** [createUser], [updateUser] and [deleteUser] are atomic: when they
    throw, whatever the cause, the stored rows are those they started from. *)
Theorem user_writes_atomic (d : UserRegistrationInput) (i : string) (du : UserUpdateInput) :
  atomic (createUser d) /\ atomic (updateUser i du) /\ atomic (deleteUser i).
Proof.
  split; [|split].
  - unfold createUser. apply atomic_try_catch; [|intros ?; read_only_solve].
    apply atomic_bind; [apply findByEmail_read_only|]. intros [x|].
    + apply atomic_of_read_only. read_only_solve.
    + apply atomic_bind; [unfold hashPassword; read_only_solve|]. intros h.
      apply atomic_prisma_create.
  - unfold updateUser. apply atomic_try_catch; [|intros ?; read_only_solve].
    apply atomic_bind; [apply findById_read_only|]. intros [eu|].
    + apply atomic_bind; [read_only_solve; apply findByEmail_read_only|]. intros _.
      apply atomic_bind; [unfold hashPassword; read_only_solve|]. intros data.
      apply atomic_prisma_update.
    + apply atomic_of_read_only. read_only_solve.
  - unfold deleteUser. apply atomic_try_catch; [apply atomic_prisma_delete|].
    intros ?; read_only_solve.
Qed.


(** [findAll] answers every stored user exactly once, newest first; when
    the query fails it throws [UserServiceError "Failed to retrieve users"]
    wrapping the cause. *)
Theorem findAll_newest_first (s : St) :
  match flt FindMany with
  | None => exists us, fst (findAll s) = Ok us /\ Permutation us (users s) /\
                       Sorted (fun a b => createdAt b <= createdAt a)%nat us
  | Some f => fst (findAll s) =
              Err (UserServiceError "Failed to retrieve users" (Some (lib_error f)))
  end.
Proof.
  unfold findAll, prisma_findMany, try_catch, db_call.
  destruct (flt FindMany) as [f|]; [reflexivity|].
  exists (sort_desc (users s)). split; [reflexivity|]. apply sort_desc_spec.
Qed.

(** Each service throws only the errors it declares: the user service
    its three error classes ([findById], [findByEmail] and [findAll] only
    [UserServiceError]), the auth service [UserAlreadyExistsError] or
    [AuthServiceError] from [register] and [InvalidCredentialsError] or
    [AuthServiceError] from [login]. *)
Theorem services_throw_declared_errors (secret : option string) (d : UserRegistrationInput)
    (dl : UserLoginInput) (i e : string) (du : UserUpdateInput) :
  throws_only (fun x => match x with UserServiceError _ _ => True | _ => False end) (findById i) /\
  throws_only (fun x => match x with UserServiceError _ _ => True | _ => False end) (findByEmail e) /\
  throws_only (fun x => match x with UserServiceError _ _ => True | _ => False end) findAll /\
  throws_only (fun x => match x with
                        | UserAlreadyExistsError _ | UserServiceError _ _ => True
                        | _ => False end) (createUser d) /\
  throws_only (fun x => match x with
                        | UserNotFoundError _ | UserAlreadyExistsError _ | UserServiceError _ _ => True
                        | _ => False end) (updateUser i du) /\
  throws_only (fun x => match x with
                        | UserNotFoundError _ | UserServiceError _ _ => True
                        | _ => False end) (deleteUser i) /\
  throws_only (fun x => match x with
                        | UserAlreadyExistsError _ | AuthServiceError _ _ => True
                        | _ => False end) (register secret d) /\
  throws_only (fun x => match x with
                        | InvalidCredentialsError | AuthServiceError _ _ => True
                        | _ => False end) (login secret dl).
Proof.
  repeat match goal with |- _ /\ _ => split end;
  apply throws_only_try_catch; intros x;
  repeat match goal with |- context [match ?y with _ => _ end] => destruct y end;
  apply throws_only_throw; exact I.
Qed.

Ltac throws_only_solve :=
  apply throws_only_try_catch; intros ?;
  repeat match goal with |- context [match ?y with _ => _ end] => destruct y end;
  apply throws_only_throw; exact I.

(** No user or auth controller ever falls back to the generic 500
    [SERVER_ERROR] answer: every error the services throw has its own
    answer. *)
Theorem controllers_never_answer_server_error (secret : option string)
    (d : UserRegistrationInput) (dl : UserLoginInput) (i : string) (du : UserUpdateInput) (s : St) :
  Forall (fun r : result Resp * St =>
            match fst r with Ok resp => is_server_error resp = false | Err _ => True end)
    [ctl_register secret d s; ctl_login secret dl s; ctl_getAllUsers s; ctl_getUserById i s;
     ctl_createUser d s; ctl_updateUser i du s; ctl_deleteUser i s].
Proof.
  assert (Hreg : throws_only (fun x => match x with
                   | UserAlreadyExistsError _ | AuthServiceError _ _ => True | _ => False end)
                   (register secret d)) by throws_only_solve.
  assert (Hlog : throws_only (fun x => match x with
                   | InvalidCredentialsError | AuthServiceError _ _ => True | _ => False end)
                   (login secret dl)) by throws_only_solve.
  assert (Hall : throws_only (fun x => match x with UserServiceError _ _ => True | _ => False end)
                   findAll) by throws_only_solve.
  assert (Hid : throws_only (fun x => match x with UserServiceError _ _ => True | _ => False end)
                   (findById i)) by throws_only_solve.
  assert (Hcr : throws_only (fun x => match x with
                   | UserAlreadyExistsError _ | UserServiceError _ _ => True | _ => False end)
                   (createUser d)) by throws_only_solve.
  assert (Hup : throws_only (fun x => match x with
                   | UserNotFoundError _ | UserAlreadyExistsError _ | UserServiceError _ _ => True
                   | _ => False end) (updateUser i du)) by throws_only_solve.
  assert (Hdel : throws_only (fun x => match x with
                   | UserNotFoundError _ | UserServiceError _ _ => True | _ => False end)
                   (deleteUser i)) by throws_only_solve.
  repeat constructor.
  - specialize (Hreg s). unfold ctl_register.
    destruct (register secret d s) as [[a|e] s'] eqn:E; simpl in *; [reflexivity|].
    destruct e; try contradiction; reflexivity.
  - specialize (Hlog s). unfold ctl_login.
    destruct (login secret dl s) as [[a|e] s'] eqn:E; simpl in *; [reflexivity|].
    destruct e; try contradiction; reflexivity.
  - specialize (Hall s). unfold ctl_getAllUsers.
    destruct (findAll s) as [[a|e] s'] eqn:E; simpl in *; [reflexivity|].
    destruct e; try contradiction; reflexivity.
  - specialize (Hid s). unfold ctl_getUserById.
    destruct (truthy i); simpl; [|reflexivity].
    destruct (findById i s) as [[[a|]|e] s'] eqn:E; simpl in *; try reflexivity.
    destruct e; try contradiction; reflexivity.
  - specialize (Hcr s). unfold ctl_createUser.
    destruct (createUser d s) as [[a|e] s'] eqn:E; simpl in *; [reflexivity|].
    destruct e; try contradiction; reflexivity.
  - specialize (Hup s). unfold ctl_updateUser.
    destruct (truthy i); simpl; [|reflexivity].
    destruct (updateUser i du s) as [[a|e] s'] eqn:E; simpl in *; [reflexivity|].
    destruct e; try contradiction; reflexivity.
  - specialize (Hdel s). unfold ctl_deleteUser.
    destruct (truthy i); simpl; [|reflexivity].
    destruct (deleteUser i s) as [[a|e] s'] eqn:E; simpl in *; [reflexivity|].
    destruct e; try contradiction; reflexivity.
Qed.


(** What [verifyToken] returns is exactly what [jwt.verify] decoded under
    the configured secret, for a non-empty token, and it always carries a
    non-empty [userId] and [email]; the middleware attaches to a request
    only a payload [verifyToken] returned. *)
Theorem verified_payloads_complete (secret : option string) (tok : string) (t : nat)
    (p : JWTPayload) (h : option string) :
  (verifyToken secret tok t = Ok p ->
   exists k, secret_ok secret = Some k /\ truthy tok = true /\ jwt_verify tok k t = JOk p /\
             truthy (userId p) = true /\ truthy (p_email p) = true) /\
  (authenticateToken h secret t = MwNext p -> exists tok', verifyToken secret tok' t = Ok p).
Proof.
  split.
  - unfold verifyToken. destruct (secret_ok secret) as [k|]; [|discriminate].
    destruct (truthy tok) eqn:Ht; simpl; [|discriminate].
    destruct (jwt_verify tok k t) as [d| | | |] eqn:J; try discriminate.
    destruct (truthy (userId d)) eqn:Hi; destruct (truthy (p_email d)) eqn:He; simpl;
      try discriminate.
    intros H. injection H as <-. eauto 10.
  - intros H. unfold authenticateToken in H. destruct h as [x|]; [|discriminate].
    destruct (negb (truthy x)); [discriminate|].
    destruct (_ || _); [discriminate|].
    destruct (negb (truthy _)); [discriminate|].
    destruct (verifyToken secret (nth 1 (split_space x) "") t) as [d|e] eqn:V.
    + injection H as ->. eauto.
    + exfalso. revert H. cbv zeta.
      repeat match goal with |- context [if ?b then _ else _] => destruct b end; discriminate.
Qed.

(** With the header [Bearer <tok>], [tok] free of spaces, the middleware
    lets the request through with [req.user = p] exactly when
    [verifyToken] returns [p]. *)
Theorem bearer_header_accepted_iff_verified (secret : option string) (tok : string) (t : nat)
    (p : JWTPayload) :
  has_space tok = false ->
  (authenticateToken (Some ("Bearer " ++ tok)) secret t = MwNext p <->
   verifyToken secret tok t = Ok p).
Proof.
  intros Hs. unfold authenticateToken. rewrite (split_bearer tok Hs). simpl.
  destruct (truthy tok) eqn:Ht; simpl.
  - destruct (verifyToken secret tok t) as [d|e].
    + split; intros H; injection H as ->; reflexivity.
    + split; [|discriminate]. intros H. exfalso. revert H. cbv zeta.
      repeat match goal with |- context [if ?b then _ else _] => destruct b end; discriminate.
  - unfold verifyToken. rewrite Ht. destruct (secret_ok secret); simpl; split; discriminate.
Qed.

(** A non-empty [Authorization] header is rejected as
    [INVALID_TOKEN_FORMAT] exactly when it is not [Bearer], one space,
    and a rest without spaces: a lowercase [bearer], another scheme, a
    bare token, a double space or a token containing a space are all
    rejected this way, before any verification. *)
Theorem header_format_rejected_iff (h : string) (secret : option string) (t : nat) :
  truthy h = true ->
  (decision_of (authenticateToken (Some h) secret t) = DReject 401 "INVALID_TOKEN_FORMAT" <->
   ~ exists tok, h = "Bearer " ++ tok /\ has_space tok = false).
Proof.
  intros Hh. split.
  - intros Hd [tok [-> Hs]]. revert Hd. unfold authenticateToken.
    rewrite (split_bearer tok Hs). simpl.
    destruct (truthy tok); simpl; [|discriminate].
    destruct (verifyToken secret tok t); simpl; [discriminate|]. cbv zeta.
    repeat match goal with |- context [if ?b then _ else _] => destruct b end; discriminate.
  - intros Hn. unfold authenticateToken. rewrite Hh. simpl negb. cbv iota.
    destruct (_ || _) eqn:E; [reflexivity|].
    exfalso. apply Hn. apply orb_false_iff in E as [E1 E2].
    apply negb_false_iff, Nat.eqb_eq in E1. apply negb_false_iff, String.eqb_eq in E2.
    destruct (split_space_join h) as [Hj Hf].
    destruct (split_space h) as [|a [|b [|c r]]] eqn:Hs; try discriminate E1.
    simpl in E2. subst a. apply Forall_cons_iff in Hf as [_ Hf].
    apply Forall_cons_iff in Hf as [Hb _].
    exists b. split; [|exact Hb]. rewrite <- Hj. reflexivity.
Qed.

(** A token issued for a stored user (as [register] and [login] issue it,
    with the default lifetime) is accepted by both entry points while
    [jwt.verify] still accepts it: [validateToken] returns its payload and
    the middleware lets a [Bearer] request through with it. *)
Theorem issued_token_accepted (secret : option string) (k : string) (u : User) (t0 : nat) (s : St) :
  secret_ok secret = Some k -> In u (users s) -> flt (FindById (id u)) = None ->
  truthy (id u) = true -> truthy (email u) = true ->
  jwt_verify (jwt_sign (mkPayload (id u) (email u)) k DEFAULT_EXPIRES_IN t0) k (now s)
    = JOk (mkPayload (id u) (email u)) ->
  truthy (jwt_sign (mkPayload (id u) (email u)) k DEFAULT_EXPIRES_IN t0) = true ->
  has_space (jwt_sign (mkPayload (id u) (email u)) k DEFAULT_EXPIRES_IN t0) = false ->
  fst (validateToken secret (jwt_sign (mkPayload (id u) (email u)) k DEFAULT_EXPIRES_IN t0) s)
    = Ok (mkPayload (id u) (email u)) /\
  authenticateToken (Some ("Bearer " ++ jwt_sign (mkPayload (id u) (email u)) k DEFAULT_EXPIRES_IN t0))
    secret (now s) = MwNext (mkPayload (id u) (email u)).
Proof.
  set (p := mkPayload (id u) (email u)).
  set (tok := jwt_sign p k DEFAULT_EXPIRES_IN t0).
  intros Hk Hin Hf Hi He Hv Ht Hs.
  assert (V : verifyToken secret tok (now s) = Ok p).
  { unfold verifyToken. rewrite Hk, Ht. cbn [negb]. rewrite Hv.
    unfold p; cbn [userId p_email]. rewrite Hi, He. reflexivity. }
  destruct (find_id_In (id u) (users s) u Hin eq_refl) as [v Hfv].
  split.
  - unfold validateToken, try_catch, bind, get_now, lift. cbv beta. cbn [fst snd].
    rewrite V. unfold findById, prisma_findUnique_id, try_catch, db_call.
    unfold p. cbn [userId]. rewrite Hf. cbv zeta. cbn [users log_call]. rewrite Hfv.
    reflexivity.
  - unfold authenticateToken. rewrite (split_bearer tok Hs). cbn. rewrite Ht. cbn [negb].
    rewrite V. reflexivity.
Qed.

(** A successful registration stores exactly one new user with the
    submitted name and email, and answers with a token signed under the
    configured secret for that user's id and email with the default
    lifetime, at the time of the call, and with that user minus its
    password. *)
Theorem register_issues_token (secret : option string) (d : UserRegistrationInput) (s : St)
    (a : AuthResponse) (s1 : St) :
  register secret d s = (Ok a, s1) ->
  exists u k, secret_ok secret = Some k /\ users s1 = (users s ++ [u])%list /\
    email u = reg_email d /\ name u = reg_name d /\
    token a = jwt_sign (mkPayload (id u) (email u)) k DEFAULT_EXPIRES_IN (now s) /\
    auth_user a = excludePassword (user_obj u).
Proof.
  intros H. apply try_catch_ok_inv in H; [|handler_throws].
  apply bind_ok_inv in H as (u & s2 & Hc & H).
  destruct (createUser_ok_inv d s u s2 Hc) as (Hu & Hem & Hnm & Hnow).
  unfold bind, get_now, lift, ret in H. cbv beta in H.
  unfold generateToken in H. destruct (secret_ok secret) as [k|] eqn:Hk; [|discriminate].
  destruct (_ || _); [discriminate|].
  injection H as <- <-. exists u, k. rewrite Hnow. auto 7.
Qed.

(** A successful login found the user by the lowercased email, the
    password matched the stored hash, the token is signed under the
    configured secret for that user's id and email with the default
    lifetime at the time of the call, the answer carries the user minus
    its password, and the stored users are unchanged. *)
Theorem login_success_inv (secret : option string) (dl : UserLoginInput) (s : St)
    (a : AuthResponse) (s1 : St) :
  login secret dl s = (Ok a, s1) ->
  exists u k, find_email (toLowerCase (login_email dl)) (users s) = Some u /\
    bcrypt_compare (login_password dl) (password u) = true /\
    secret_ok secret = Some k /\
    token a = jwt_sign (mkPayload (id u) (email u)) k DEFAULT_EXPIRES_IN (now s) /\
    auth_user a = excludePassword (user_obj u) /\ users s1 = users s.
Proof.
  intros H. apply try_catch_ok_inv in H; [|handler_throws].
  apply bind_ok_inv in H as (found & s2 & Hf & H).
  destruct (flt (FindByEmail (toLowerCase (login_email dl)))) as [f|] eqn:F.
  { rewrite (findByEmail_fault _ _ _ F) in Hf. discriminate. }
  rewrite (findByEmail_ok _ _ F) in Hf. injection Hf as <- <-.
  destruct (find_email (toLowerCase (login_email dl)) (users s)) as [u|] eqn:Fu;
    [|discriminate].
  apply bind_ok_inv in H as (valid & s3 & Hv & H).
  unfold verifyPassword, throw, ret in Hv.
  destruct (negb (truthy (login_password dl))); [discriminate|].
  destruct (negb (truthy (password u))); [discriminate|].
  injection Hv as <- <-.
  destruct (bcrypt_compare (login_password dl) (password u)) eqn:B; [|discriminate].
  cbn [negb] in H. unfold bind, get_now, lift, ret in H. cbv beta in H.
  unfold generateToken in H. destruct (secret_ok secret) as [k|] eqn:Hk; [|discriminate].
  destruct (_ || _); [discriminate|].
  injection H as <- <-. exists u, k. auto 7.
Qed.

(** Login looks the email up lowercased: logging in with an email and
    with its lowercase form behave identically, in the answer and in the
    effects. *)
Theorem login_email_case_insensitive (secret : option string) (dl : UserLoginInput) (s : St) :
  flt (FindByEmail (toLowerCase (login_email dl))) = None ->
  login secret dl s = login secret (mkLogin (toLowerCase (login_email dl)) (login_password dl)) s.
Proof.
  intros F. unfold login, try_catch, bind. cbv beta. cbn [login_email login_password].
  rewrite (findByEmail_ok _ _ F).
  rewrite (findByEmail_ok (toLowerCase (login_email dl))) by (rewrite toLowerCase_idem; exact F).
  rewrite toLowerCase_idem. reflexivity.
Qed.

(** *** Schemas *)

Lemma registration_parse_valid_inv (r : RawRegistration) (d : UserRegistrationInput) :
  userRegistrationSchema_parse r = Valid d ->
  exists n e p, rr_name r = Some n /\ rr_email r = Some e /\ rr_password r = Some p /\
    (2 <= String.length (trim n) <= 50)%nat /\ email_format_ok (toLowerCase (trim e)) = true /\
    (8 <= String.length p)%nat /\ passwordRegex_test p = true /\
    d = mkReg (trim n) (toLowerCase (trim e)) p.
Proof.
  unfold userRegistrationSchema_parse, check_req, check_name, check_email, check_password.
  destruct (rr_name r) as [n|]; destruct (rr_email r) as [e|]; destruct (rr_password r) as [p|];
    simpl;
    repeat match goal with |- context [if ?b then _ else _] => let E := fresh "E" in destruct b eqn:E end;
    simpl; intros H; try discriminate H.
  injection H as <-.
  repeat match goal with H : (_ <? _)%nat = false |- _ => apply Nat.ltb_ge in H end.
  exists n, e, p. repeat split; auto; lia.
Qed.


Lemma update_parse_email_lower (r : RawUpdate) (d : UserUpdateInput) :
  userUpdateSchema_parse r = Valid d -> forall e, upd_email d = Some e -> toLowerCase e = e.
Proof.
  unfold userUpdateSchema_parse.
  destruct (check_opt check_name (raw_name r)) as [n i1].
  destruct (check_opt check_password (raw_password r)) as [p i3].
  destruct (raw_email r) as [x|]; simpl.
  - match goal with |- context [match ?l with [] => _ | _ :: _ => _ end] => destruct l end;
      intros H; [|discriminate H].
    injection H as <-. simpl. intros e He. injection He as <-. apply toLowerCase_idem.
  - match goal with |- context [match ?l with [] => _ | _ :: _ => _ end] => destruct l end;
      intros H; [|discriminate H].
    injection H as <-. simpl. discriminate.
Qed.

Lemma userId_parse_valid (i t : string) :
  userIdSchema_parse i = Valid t <-> t = trim i /\ trim i <> "".
Proof.
  unfold userIdSchema_parse, check_id. destruct (trim i) as [|c r]; simpl.
  - split; [discriminate|]. intros [_ H]. congruence.
  - split; [intros H; injection H as <-; split; [reflexivity|discriminate]|].
    intros [-> _]. reflexivity.
Qed.




(** *** Routes *)

Lemma trim_nonempty_truthy (t : string) : t <> "" -> truthy t = true.
Proof. destruct t; [congruence|reflexivity]. Qed.

(** A request whose body or id parameter fails its schema is answered
    without touching anything: the state, call log included, is the one
    the request found; behind [authenticateToken] the answer is 400
    [VALIDATION_ERROR] once the token is accepted, and the middleware's
    answer otherwise. *)
Theorem invalid_requests_touch_nothing (h secret : option string) (body : RawRegistration)
    (lbody : RawLogin) (rawId : string) (ubody : RawUpdate) (s : St) :
  (forall is, userRegistrationSchema_parse body = Invalid is ->
     route_register secret body s =
       (Ok (RespErr 400 "VALIDATION_ERROR" "Request validation failed"), s) /\
     route_createUser h secret body s =
       (Ok (match authenticateToken h secret (now s) with
            | MwNext _ => RespErr 400 "VALIDATION_ERROR" "Request validation failed"
            | MwFail st c m => RespErr st c m end), s)) /\
  (forall is, userLoginSchema_parse lbody = Invalid is ->
     route_login secret lbody s =
       (Ok (RespErr 400 "VALIDATION_ERROR" "Request validation failed"), s)) /\
  (forall is, userIdSchema_parse rawId = Invalid is ->
     route_getUserById h secret rawId s =
       (Ok (match authenticateToken h secret (now s) with
            | MwNext _ => RespErr 400 "VALIDATION_ERROR" "Request validation failed"
            | MwFail st c m => RespErr st c m end), s) /\
     route_updateUser h secret rawId ubody s =
       (Ok (match authenticateToken h secret (now s) with
            | MwNext _ => RespErr 400 "VALIDATION_ERROR" "Request validation failed"
            | MwFail st c m => RespErr st c m end), s) /\
     route_deleteUser h secret rawId s =
       (Ok (match authenticateToken h secret (now s) with
            | MwNext _ => RespErr 400 "VALIDATION_ERROR" "Request validation failed"
            | MwFail st c m => RespErr st c m end), s)) /\
  (forall is, userUpdateSchema_parse ubody = Invalid is ->
     route_updateUser h secret rawId ubody s =
       (Ok (match authenticateToken h secret (now s) with
            | MwNext _ => RespErr 400 "VALIDATION_ERROR" "Request validation failed"
            | MwFail st c m => RespErr st c m end), s)).
Proof.
  unfold route_register, route_login, route_getUserById, route_createUser, route_updateUser,
    route_deleteUser, protect, validateRequest.
  split; [|split; [|split]].
  - intros is H. rewrite H. split; [reflexivity|].
    destruct (authenticateToken h secret (now s)); reflexivity.
  - intros is H. rewrite H. reflexivity.
  - intros is H. rewrite H.
    destruct (authenticateToken h secret (now s)); repeat split.
  - intros is H. rewrite H.
    destruct (authenticateToken h secret (now s)); [|reflexivity].
    destruct (userIdSchema_parse rawId); reflexivity.
Qed.

Lemma authenticateToken_fail_code (h secret : option string) (t : nat) st c m :
  authenticateToken h secret t = MwFail st c m -> c <> "INVALID_USER_ID"%string.
Proof.
  unfold authenticateToken. cbv zeta.
  repeat match goal with |- context [match ?x with _ => _ end] => destruct x end;
  intros H; first [discriminate H | injection H; intros; subst; discriminate].
Qed.

(** Behind the id routes the controllers' own 400 [INVALID_USER_ID]
    answer is never given: [userIdSchema] has already trimmed the id and
    rejected a blank one as [VALIDATION_ERROR]. *)
Theorem routes_never_answer_invalid_user_id (h secret : option string) (rawId : string)
    (ubody : RawUpdate) (s : St) :
  Forall (fun r : result Resp * St =>
            fst r <> Ok (RespErr 400 "INVALID_USER_ID" "User ID is required"))
    [route_getUserById h secret rawId s; route_updateUser h secret rawId ubody s;
     route_deleteUser h secret rawId s].
Proof.
  unfold route_getUserById, route_updateUser, route_deleteUser, protect, validateRequest.
  destruct (authenticateToken h secret (now s)) as [p|st c m] eqn:A.
  2:{ apply authenticateToken_fail_code in A.
      repeat constructor; simpl; intros H; injection H; intros; subst; contradiction. }
  destruct (userIdSchema_parse rawId) as [t|is] eqn:Hid;
    [|repeat constructor; discriminate].
  apply userId_parse_valid in Hid as [-> Ht]. apply trim_nonempty_truthy in Ht.
  unfold ctl_getUserById, ctl_updateUser, ctl_deleteUser. rewrite Ht. cbn [negb].
  repeat constructor.
  - destruct (findById (trim rawId) s) as [[[u|]|e] s']; simpl; try discriminate.
    destruct e; discriminate.
  - destruct (userUpdateSchema_parse ubody); [|discriminate].
    destruct (updateUser (trim rawId) a s) as [[u|e] s']; simpl; try discriminate.
    destruct e; discriminate.
  - destruct (deleteUser (trim rawId) s) as [[u|e] s']; simpl; try discriminate.
    destruct e; discriminate.
Qed.

(** *** Lowercase emails *)

Lemma keeps_of_read_only {A} (m : M A) : read_only m -> keeps_lowercase m.
Proof.
  intros H s Hs u Hin. destruct (H s) as [Hu _]. rewrite <- Hu in Hin. exact (Hs u Hin).
Qed.

Lemma keeps_bind {A B} (m : M A) (k : A -> M B) :
  keeps_lowercase m -> (forall a, keeps_lowercase (k a)) -> keeps_lowercase (bind m k).
Proof.
  intros Hm Hk s Hs. specialize (Hm s Hs). unfold bind.
  destruct (m s) as [[a|e] s1]; simpl in *; [exact (Hk a s1 Hm)|exact Hm].
Qed.

Lemma keeps_bind_post {A B} (P : A -> Prop) (m : M A) (k : A -> M B) :
  keeps_lowercase m -> (forall s a s', m s = (Ok a, s') -> P a) ->
  (forall a, P a -> keeps_lowercase (k a)) -> keeps_lowercase (bind m k).
Proof.
  intros Hm HP Hk s Hs. specialize (Hm s Hs). unfold bind.
  destruct (m s) as [[a|e] s1] eqn:E; simpl in *; [|exact Hm].
  exact (Hk a (HP _ _ _ E) s1 Hm).
Qed.

Lemma keeps_try_catch {A} (m : M A) (h : thrown -> M A) :
  keeps_lowercase m -> (forall e, keeps_lowercase (h e)) -> keeps_lowercase (try_catch m h).
Proof.
  intros Hm Hh s Hs. specialize (Hm s Hs). unfold try_catch.
  destruct (m s) as [[a|e] s1]; simpl in *; [exact Hm|exact (Hh e s1 Hm)].
Qed.

Lemma keeps_db_call {A} (c : DbCall) (body : M A) :
  keeps_lowercase body -> keeps_lowercase (db_call c body).
Proof.
  intros Hb s Hs. unfold db_call. cbv zeta.
  destruct (flt c); [exact Hs|exact (Hb (log_call c s) Hs)].
Qed.

Lemma keeps_prisma_create (nm em pw : string) :
  toLowerCase em = em -> keeps_lowercase (prisma_create nm em pw).
Proof.
  intros He. apply keeps_db_call. intros s Hs. cbn [snd].
  destruct (existsb _ (users s)); [exact Hs|].
  intros u Hin. simpl in Hin. apply in_app_or in Hin as [Hin|[<-|[]]]; [exact (Hs u Hin)|exact He].
Qed.

Lemma keeps_prisma_update (i : string) (data : UpdateData) :
  (forall e, ud_email data = Some e -> toLowerCase e = e) -> keeps_lowercase (prisma_update i data).
Proof.
  intros He. apply keeps_db_call. intros s Hs. cbn [snd].
  destruct (find_id i (users s)) as [u0|]; [|exact Hs]. cbv zeta.
  match goal with |- context [if ?b then _ else _] => destruct b end; [exact Hs|].
  intros v Hin. simpl in Hin. apply in_map_iff in Hin as [r [<- Hr]].
  destruct (String.eqb (id r) i); [|exact (Hs r Hr)].
  unfold apply_update; simpl. destruct (ud_email data) as [e|]; [exact (He e eq_refl)|exact (Hs r Hr)].
Qed.

Lemma keeps_prisma_delete (i : string) : keeps_lowercase (prisma_delete i).
Proof.
  apply keeps_db_call. intros s Hs. cbn [snd].
  destruct (find_id i (users s)) as [u0|]; [|exact Hs].
  intros u Hin. simpl in Hin. apply filter_In in Hin as [Hin _]. exact (Hs u Hin).
Qed.

Lemma createUser_keeps (d : UserRegistrationInput) :
  toLowerCase (reg_email d) = reg_email d -> keeps_lowercase (createUser d).
Proof.
  intros He. unfold createUser.
  apply keeps_try_catch; [|intros ?; apply keeps_of_read_only; read_only_solve].
  apply keeps_bind; [apply keeps_of_read_only, findByEmail_read_only|]. intros [x|].
  - apply keeps_of_read_only. read_only_solve.
  - apply keeps_bind; [apply keeps_of_read_only; unfold hashPassword; read_only_solve|].
    intros hh. apply keeps_prisma_create. exact He.
Qed.

Lemma supplied_some (o : option string) (e : string) : supplied o = Some e -> o = Some e.
Proof. destruct o as [v|]; simpl; [destruct (truthy v); congruence|discriminate]. Qed.

Lemma updateUser_keeps (i : string) (d : UserUpdateInput) :
  (forall e, upd_email d = Some e -> toLowerCase e = e) -> keeps_lowercase (updateUser i d).
Proof.
  intros He. unfold updateUser.
  apply keeps_try_catch; [|intros ?; apply keeps_of_read_only; read_only_solve].
  apply keeps_bind; [apply keeps_of_read_only, findById_read_only|]. intros [eu|].
  - apply keeps_bind; [apply keeps_of_read_only; read_only_solve; apply findByEmail_read_only|].
    intros _.
    apply (keeps_bind_post (fun data => ud_email data = supplied (upd_email d))).
    + apply keeps_of_read_only. unfold hashPassword. read_only_solve.
    + intros s a s'. destruct (supplied (upd_password d)).
      * unfold bind, hashPassword, ret, throw. destruct (negb (truthy s0)); simpl;
          intros H; [discriminate|injection H as <- _; reflexivity].
      * unfold ret. intros H. injection H as <- _. reflexivity.
    + intros data Hd. apply keeps_prisma_update. rewrite Hd.
      intros e Hs. apply supplied_some in Hs. exact (He e Hs).
  - apply keeps_of_read_only. read_only_solve.
Qed.

Lemma deleteUser_keeps (i : string) : keeps_lowercase (deleteUser i).
Proof.
  unfold deleteUser. apply keeps_try_catch; [apply keeps_prisma_delete|].
  intros ?; apply keeps_of_read_only; read_only_solve.
Qed.

Lemma protect_keeps (h secret : option string) (handler : M Resp) :
  keeps_lowercase handler -> keeps_lowercase (protect h secret handler).
Proof.
  intros H s Hs. unfold protect. destruct (authenticateToken h secret (now s)); [exact (H s Hs)|exact Hs].
Qed.

Lemma validateRequest_keeps {A} (parsed : parse_result A) (next : A -> M Resp) :
  (forall v, parsed = Valid v -> keeps_lowercase (next v)) ->
  keeps_lowercase (validateRequest parsed next).
Proof.
  intros H s Hs. unfold validateRequest. destruct parsed as [v|is]; [exact (H v eq_refl s Hs)|exact Hs].
Qed.

Lemma register_state_eq (secret : option string) (d : UserRegistrationInput) (s : St) :
  snd (register secret d s) = snd (createUser d s).
Proof.
  unfold register, try_catch, bind.
  destruct (createUser d s) as [[u|e] s1]; simpl.
  - unfold get_now, lift, ret. destruct (generateToken _ _ _ _) as [tk|e]; simpl;
      [reflexivity|destruct e; reflexivity].
  - destruct e; reflexivity.
Qed.

(** [register] changes the stored data exactly as the [createUser] it
    calls does, whether it succeeds or fails (the token is issued after
    the user is stored and issuing it changes nothing). *)
Theorem register_store_effect_is_createUser (secret : option string)
    (d : UserRegistrationInput) (s : St) :
  snd (register secret d s) = snd (createUser d s).
Proof. apply register_state_eq. Qed.

(** Every route keeps the stored emails lowercase: the write routes store
    only emails that went through a schema that lowercases them, and the
    others do not write. *)
Theorem routes_keep_emails_lowercase (h secret : option string) (body : RawRegistration)
    (lbody : RawLogin) (rawId : string) (ubody : RawUpdate) (s : St) :
  lowercase_store s ->
  Forall (fun r : result Resp * St => lowercase_store (snd r))
    [route_register secret body s; route_login secret lbody s; route_getAllUsers h secret s;
     route_getUserById h secret rawId s; route_createUser h secret body s;
     route_updateUser h secret rawId ubody s; route_deleteUser h secret rawId s].
Proof.
  intros Hs.
  assert (Hreg : forall d, userRegistrationSchema_parse body = Valid d ->
                 toLowerCase (reg_email d) = reg_email d).
  { intros d Hd. apply registration_parse_valid_inv in Hd as (n&e&p&_&_&_&_&_&_&_&->).
    apply toLowerCase_idem. }
  assert (Hcr : forall d, userRegistrationSchema_parse body = Valid d ->
                keeps_lowercase (ctl_createUser d)).
  { intros d Hd s0 Hs0. generalize (createUser_keeps d (Hreg d Hd) s0 Hs0). unfold ctl_createUser.
    destruct (createUser d s0) as [[? | ?] ?]; exact (fun x => x). }
  repeat constructor.
  - revert s Hs. apply validateRequest_keeps. intros d Hd s0 Hs0.
    generalize (createUser_keeps d (Hreg d Hd) s0 Hs0). unfold ctl_register.
    rewrite <- (register_state_eq secret d s0).
    destruct (register secret d s0) as [[? | ?] ?]; exact (fun x => x).
  - revert s Hs. apply validateRequest_keeps. intros d _ s0 Hs0. unfold ctl_login.
    assert (Hl : keeps_lowercase (login secret d)).
    { apply keeps_of_read_only. unfold login, verifyPassword.
      apply read_only_try_catch; [|intros ?; read_only_solve].
      apply read_only_bind; [apply findByEmail_read_only|]. intros ?. read_only_solve. }
    generalize (Hl s0 Hs0). destruct (login secret d s0) as [[? | ?] ?]; exact (fun x => x).
  - revert s Hs. apply protect_keeps. intros s0 Hs0. unfold ctl_getAllUsers.
    assert (Hl : keeps_lowercase findAll)
      by (apply keeps_of_read_only; unfold findAll, prisma_findMany; read_only_solve).
    generalize (Hl s0 Hs0). destruct (findAll s0) as [[? | ?] ?]; exact (fun x => x).
  - revert s Hs. apply protect_keeps, validateRequest_keeps. intros i _ s0 Hs0.
    unfold ctl_getUserById. destruct (negb (truthy i)); [exact Hs0|].
    generalize (keeps_of_read_only _ (findById_read_only i) s0 Hs0).
    destruct (findById i s0) as [[[?|]|?] ?]; exact (fun x => x).
  - revert s Hs. apply protect_keeps, validateRequest_keeps. exact Hcr.
  - revert s Hs. apply protect_keeps, validateRequest_keeps. intros i _.
    apply validateRequest_keeps. intros du Hdu s0 Hs0. unfold ctl_updateUser.
    destruct (negb (truthy i)); [exact Hs0|].
    generalize (updateUser_keeps i du (update_parse_email_lower ubody du Hdu) s0 Hs0).
    destruct (updateUser i du s0) as [[? | ?] ?]; exact (fun x => x).
  - revert s Hs. apply protect_keeps, validateRequest_keeps. intros i _ s0 Hs0.
    unfold ctl_deleteUser. destruct (negb (truthy i)); [exact Hs0|].
    generalize (deleteUser_keeps i s0 Hs0).
    destruct (deleteUser i s0) as [[? | ?] ?]; exact (fun x => x).
Qed.

(** *** Service edge cases *)

(** Without storage failures, [updateUser] on an unknown id throws
    [UserNotFoundError] after the id lookup alone; a supplied email that
    differs from the user's current one and is already stored (looked up
    lowercased) throws [UserAlreadyExistsError] with the email as sent,
    after the two lookups and before anything is written. *)
Theorem updateUser_rejections (i : string) (d : UserUpdateInput) (s : St) :
  no_faults ->
  (find_id i (users s) = None ->
     updateUser i d s = (Err (UserNotFoundError i), log_call (FindById i) s)) /\
  (forall u e, find_id i (users s) = Some u -> supplied (upd_email d) = Some e -> e <> email u ->
     find_email (toLowerCase e) (users s) <> None ->
     updateUser i d s = (Err (UserAlreadyExistsError e),
                         log_call (FindByEmail (toLowerCase e)) (log_call (FindById i) s))).
Proof.
  intros NF. split.
  - intros N. unfold updateUser, try_catch, bind. cbv beta.
    rewrite (findById_ok i s (NF _)), N. reflexivity.
  - intros u e Hu He Hne Hf. unfold updateUser, try_catch, bind. cbv beta.
    rewrite (findById_ok i s (NF _)), Hu. cbv beta iota. rewrite He.
    rewrite (proj2 (String.eqb_neq e (email u)) Hne). cbn [negb].
    rewrite (findByEmail_ok e _ (NF _)). cbn [users log_call].
    destruct (find_email (toLowerCase e) (users s)); [reflexivity|contradiction].
Qed.

Lemma createUser_ok_lookup (d : UserRegistrationInput) (s : St) (u : User) (s1 : St) :
  createUser d s = (Ok u, s1) ->
  flt (FindByEmail (toLowerCase (reg_email d))) = None /\
  find_email (toLowerCase (reg_email d)) (users s) = None.
Proof.
  intros H. apply try_catch_ok_inv in H; [|handler_throws].
  apply bind_ok_inv in H. destruct H as [ex [s2 [H1 H2]]].
  unfold findByEmail, prisma_findUnique_email, try_catch, db_call in H1.
  destruct (flt (FindByEmail (toLowerCase (reg_email d)))); [discriminate|].
  injection H1 as <- <-. simpl in H2.
  destruct (find_email (toLowerCase (reg_email d)) (users s)); [discriminate|]. auto.
Qed.

Lemma find_email_app (e : string) (l1 l2 : list User) :
  find_email e (l1 ++ l2) =
  match find_email e l1 with Some x => Some x | None => find_email e l2 end.
Proof.
  unfold find_email. induction l1 as [|x l1 IH]; simpl; [reflexivity|].
  destruct (String.eqb (email x) e); [reflexivity|exact IH].
Qed.

(** [createUser] stores the email as it receives it while lookups
    lowercase it: a user created directly through [createUser] with an
    email that is not lowercase is stored, but no email lookup finds it
    and logging in with that email throws [InvalidCredentialsError]. *)
Theorem createUser_mixed_case_email_unreachable (secret : option string)
    (d : UserRegistrationInput) (s : St) (u : User) (s1 : St) (pw : string) :
  createUser d s = (Ok u, s1) -> toLowerCase (reg_email d) <> reg_email d ->
  email u = reg_email d /\ In u (users s1) /\
  find_email (toLowerCase (reg_email d)) (users s1) = None /\
  fst (login secret (mkLogin (reg_email d) pw) s1) = Err InvalidCredentialsError.
Proof.
  intros H Hne. destruct (createUser_ok_lookup _ _ _ _ H) as [F N].
  destruct (createUser_ok_inv _ _ _ _ H) as (Hu & He & _ & _).
  assert (Hf : find_email (toLowerCase (reg_email d)) (users s1) = None).
  { rewrite Hu, find_email_app, N. unfold find_email; simpl. rewrite He.
    destruct (String.eqb (reg_email d) (toLowerCase (reg_email d))) eqn:E; [|reflexivity].
    apply String.eqb_eq in E. congruence. }
  split; [exact He|]. split; [rewrite Hu; apply in_or_app; right; left; reflexivity|].
  split; [exact Hf|].
  unfold login, try_catch, bind. cbv beta. cbn [login_email login_password].
  rewrite (findByEmail_ok _ s1 F), Hf. reflexivity.
Qed.

(** An empty password is not a wrong password for the services: logging
    in to an existing account with it throws [AuthServiceError "Login
    failed"] (from [verifyPassword]) rather than
    [InvalidCredentialsError], and creating a user with it throws
    [UserServiceError "Failed to create user"] (from [hashPassword]) when
    the email is free. *)
Theorem empty_password_is_service_error (secret : option string) (e nm : string) (s : St) (u : User) :
  flt (FindByEmail (toLowerCase e)) = None ->
  (find_email (toLowerCase e) (users s) = Some u ->
     fst (login secret (mkLogin e "") s) =
       Err (AuthServiceError "Login failed"
              (Some (PlainError "Password must be a non-empty string")))) /\
  (find_email (toLowerCase e) (users s) = None ->
     fst (createUser (mkReg nm e "") s) =
       Err (UserServiceError "Failed to create user"
              (Some (PlainError "Password must be a non-empty string")))).
Proof.
  intros F. split.
  - intros Hu. unfold login, try_catch, bind. cbv beta. cbn [login_email login_password].
    rewrite (findByEmail_ok _ s F), Hu. reflexivity.
  - intros N. unfold createUser, try_catch, bind. cbv beta. cbn [reg_email reg_password].
    rewrite (findByEmail_ok _ s F), N. reflexivity.
Qed.

End Backend.


Example ex_register :
  fst (register flt0 hash0 sign0 (Some "s3cret") john st0) =
  Ok (mkAuth "tok:c0" [("id", JStr "c0"); ("name", JStr "John Doe");
     ("email", JStr "john@example.com"); ("createdAt", JDate 100); ("updatedAt", JDate 100)]).
Proof. reflexivity. Qed.

Example ex_register_twice :
  let s1 := snd (register flt0 hash0 sign0 (Some "s3cret") john st0) in
  fst (register flt0 hash0 sign0 (Some "s3cret") (mkReg "J" "JOHN@example.com" "Password123") s1)
  = Err (UserAlreadyExistsError "JOHN@example.com").
Proof. reflexivity. Qed.

Example ex_mw :
  decision_of (authenticateToken verify0 (Some "Bearer tok:c0") (Some "s3cret") 0)
  = DProceed (mkPayload "c0" "john@example.com")
  /\ decision_of (authenticateToken verify0 (Some "Bearer old") (Some "s3cret") 0) = DReject 401 "TOKEN_EXPIRED"
  /\ decision_of (authenticateToken verify0 (Some "Bearer x") None 0) = DReject 500 "SERVER_ERROR"
  /\ decision_of (authenticateToken verify0 (Some "Bearer  x") None 0) = DReject 401 "INVALID_TOKEN_FORMAT"
  /\ decision_of (authenticateToken verify0 (Some "Bearer ") None 0) = DReject 401 "MISSING_TOKEN".
Proof. repeat split; reflexivity. Qed.

Example ex_update_empty :
  userUpdateSchema_parse email_ok0 (mkRaw None None None)
  = Invalid ["At least one field must be provided for update"].
Proof. reflexivity. Qed.

Example ex_update_ok :
  userUpdateSchema_parse email_ok0 (mkRaw (Some "  Jo ") (Some "A@B.c") None)
  = Valid (mkUpd (Some "Jo") (Some "a@b.c") None).
Proof. reflexivity. Qed.

(** ** Concrete instances of the claims *)

Lemma verify0_plain : jwt_raw_errors_plain verify0.
Proof.
  intros tok k t nm m H. unfold verify0 in H.
  destruct (String.eqb k "s3cret"); [|discriminate].
  destruct (String.eqb tok "tok:c0"); [discriminate|].
  destruct (String.eqb tok "old"); discriminate.
Qed.

Lemma flt0_no_faults : no_faults flt0.
Proof. intros c; reflexivity. Qed.

Lemma st1_lowercase : lowercase_store st1.
Proof. intros u [<-|[]]; reflexivity. Qed.

Lemma st1_after_register :
  snd (register flt0 hash0 sign0 (Some "s3cret") john st0) = st1.
Proof. reflexivity. Qed.

Lemma login_unknown_email_same_as_wrong_password_witness :
  fst (login flt0 compare0 sign0 (Some "s3cret") (mkLogin "jane@example.com" "Password123") st1)
    = Err InvalidCredentialsError /\
  fst (login flt0 compare0 sign0 (Some "s3cret") (mkLogin "john@example.com" "Wrong1234") st1)
    = Err InvalidCredentialsError /\
  fst (ctl_login flt0 compare0 sign0 (Some "s3cret") (mkLogin "jane@example.com" "Password123") st1)
    = fst (ctl_login flt0 compare0 sign0 (Some "s3cret") (mkLogin "john@example.com" "Wrong1234") st1).
Proof.
  apply (login_unknown_email_same_as_wrong_password flt0 compare0 sign0 (Some "s3cret") st1
    (mkLogin "jane@example.com" "Password123") (mkLogin "john@example.com" "Wrong1234") john_u);
    reflexivity.
Defined.

Lemma isTokenExpired_iff_expired_witness :
  isTokenExpired verify0 (Some "s3cret") "old" 100 = true /\
  isTokenExpired verify0 (Some "s3cret") "tok:c0" 100 = false /\
  isTokenExpired verify0 (Some "s3cret") "garbage" 100 = false /\
  isTokenExpired verify0 None "old" 100 = false.
Proof.
  split; [|split; [|split]];
    rewrite (isTokenExpired_iff_expired verify0 _ _ _ verify0_plain); reflexivity.
Defined.

Lemma authenticateToken_state_machine_witness :
  decision_of (authenticateToken verify0 (Some "Bearer old") (Some "s3cret") 100)
    = DReject 401 "TOKEN_EXPIRED" /\
  decision_of (authenticateToken verify0 (Some "Basic tok:c0") (Some "s3cret") 100)
    = DReject 401 "INVALID_TOKEN_FORMAT" /\
  decision_of (authenticateToken verify0 (Some "") (Some "s3cret") 100)
    = DReject 401 "MISSING_TOKEN".
Proof.
  split; [|split];
    rewrite (authenticateToken_state_machine verify0 _ _ _ verify0_plain); reflexivity.
Defined.

(** An empty Authorization header is present, yet rejected as a missing
    token, not as a malformed one. *)
Lemma authenticateToken_empty_header_counterexample :
  decision_of (authenticateToken verify0 (Some "") (Some "s3cret") 100)
    <> authenticateToken_spec verify0 (Some "") (Some "s3cret") 100 /\
  decision_of (authenticateToken verify0 (Some "") (Some "s3cret") 100)
    = DReject 401 "MISSING_TOKEN" /\
  authenticateToken_spec verify0 (Some "") (Some "s3cret") 100
    = DReject 401 "INVALID_TOKEN_FORMAT".
Proof.
  split; [|split; reflexivity].
  intros H. vm_compute in H. discriminate H.
Qed.

Lemma validateToken_rechecks_user_witness :
  (exists e, validateToken flt0 verify0 (Some "s3cret") "bad" st1
             = (Err (AuthServiceError "Token validation failed" (Some e)), st1)) /\
  fst (validateToken flt0 verify0 (Some "s3cret") "tok:c0" st0)
    = Err (AuthServiceError "User no longer exists" None) /\
  fst (validateToken flt0 verify0 (Some "s3cret") "tok:c0" st1)
    = Ok (mkPayload "c0" "john@example.com").
Proof.
  split; [|split].
  - eexists.
    apply (proj1 (proj2 (validateToken_rechecks_user flt0 verify0 (Some "s3cret") "bad" st1))).
    reflexivity.
  - apply (proj1 (proj2 (proj2 (validateToken_rechecks_user flt0 verify0 (Some "s3cret") "tok:c0" st0)))
             (mkPayload "c0" "john@example.com")); reflexivity.
  - apply (proj2 (proj2 (proj2 (validateToken_rechecks_user flt0 verify0 (Some "s3cret") "tok:c0" st1)))
             (mkPayload "c0" "john@example.com") john_u); reflexivity.
Defined.

Lemma deleteUser_outcomes_witness :
  fst (deleteUser (flt_on_create None) "c0" st1) = Ok tt /\
  fst (deleteUser flt0 "c9" st1) = Err (UserNotFoundError "c9") /\
  fst (deleteUser flt0 "c0" st1) = Ok tt /\
  fst (deleteUser flt0 "c0" (snd (deleteUser flt0 "c0" st1))) = Err (UserNotFoundError "c0").
Proof.
  split; [|split].
  - exact (proj1 (deleteUser_outcomes (flt_on_create None) "c0" st1)).
  - apply (proj1 (proj2 (deleteUser_outcomes flt0 "c9" st1)) flt0_no_faults). reflexivity.
  - apply (proj2 (proj2 (deleteUser_outcomes flt0 "c0" st1)) flt0_no_faults john_u). reflexivity.
Defined.

Lemma register_not_atomic_witness :
  exists e, register flt0 hash0 sign0 None john st0
            = (Err (AuthServiceError "Registration failed" (Some e)), st1)
         /\ In john_u (users st1).
Proof.
  apply (register_not_atomic flt0 hash0 sign0 None john st0 john_u st1).
  - reflexivity.
  - left; reflexivity.
Defined.

Lemma middleware_ignores_user_store_witness :
  ((exists r, protect verify0 (Some "Bearer old") (Some "s3cret") (ctl_getAllUsers flt0) st0 = (Ok r, st0)
           /\ protect verify0 (Some "Bearer old") (Some "s3cret") (ctl_getAllUsers flt0) st1 = (Ok r, st1))
   \/ (protect verify0 (Some "Bearer old") (Some "s3cret") (ctl_getAllUsers flt0) st0 = ctl_getAllUsers flt0 st0
       /\ protect verify0 (Some "Bearer old") (Some "s3cret") (ctl_getAllUsers flt0) st1 = ctl_getAllUsers flt0 st1)) /\
  (let s' := snd (deleteUser flt0 "c0" st1) in
   fst (deleteUser flt0 "c0" st1) = Ok tt /\
   authenticateToken verify0 (Some ("Bearer " ++ "tok:c0")) (Some "s3cret") (now s')
     = MwNext (mkPayload "c0" "john@example.com") /\
   (forall handler, protect verify0 (Some ("Bearer " ++ "tok:c0")) (Some "s3cret") handler s' = handler s') /\
   fst (validateToken flt0 verify0 (Some "s3cret") "tok:c0" s')
     = Err (AuthServiceError "User no longer exists" None)).
Proof.
  split.
  - apply (proj1 (middleware_ignores_user_store flt0 verify0)). reflexivity.
  - apply (proj2 (middleware_ignores_user_store flt0 verify0) "s3cret" "tok:c0"
             (mkPayload "c0" "john@example.com") john_u st1).
    all: try reflexivity.
    simpl; left; reflexivity.
Defined.

Lemma createUser_already_exists_witness :
  fst (createUser flt0 hash0 (mkReg "J" "John@Example.com" "Password123") st1)
    = Err (UserAlreadyExistsError "John@Example.com") /\
  fst (createUser (flt_on_create (Some "P2002")) hash0 john st0)
    = Err (UserAlreadyExistsError "john@example.com") /\
  fst (createUser (flt_on_create (Some "P2003")) hash0 john st0)
    = Err (UserServiceError "Failed to create user"
             (Some (lib_error (mkFault "PrismaClientKnownRequestError" "constraint failed" (Some "P2003"))))) /\
  fst (createUser flt_on_find hash0 john st0)
    = Err (UserServiceError "Failed to create user"
             (Some (UserServiceError ("Failed to find user by email: " ++ "john@example.com")
                (Some (lib_error (mkFault "PrismaClientInitializationError" "database unreachable" None)))))) /\
  fst (register flt0 hash0 sign0 (Some "s3cret") (mkReg "J" "JOHN@example.com" "Password123") st1)
    = Err (UserAlreadyExistsError "JOHN@example.com").
Proof.
  split; [|split; [|split; [|split]]].
  - apply (proj2 (proj1 (createUser_already_exists flt0 hash0 sign0 st1
             (mkReg "J" "John@Example.com" "Password123")) flt0_no_faults st1_lowercase)).
    reflexivity.
  - apply (proj1 (proj1 (proj2 (createUser_already_exists (flt_on_create (Some "P2002")) hash0 sign0 st0 john))
             (mkFault "PrismaClientKnownRequestError" "constraint failed" (Some "P2002"))
             eq_refl eq_refl eq_refl eq_refl)).
    reflexivity.
  - apply (proj2 (proj1 (proj2 (createUser_already_exists (flt_on_create (Some "P2003")) hash0 sign0 st0 john))
             (mkFault "PrismaClientKnownRequestError" "constraint failed" (Some "P2003"))
             eq_refl eq_refl eq_refl eq_refl)).
    discriminate.
  - apply (proj1 (proj2 (proj2 (createUser_already_exists flt_on_find hash0 sign0 st0 john)))).
    reflexivity.
  - apply (proj2 (proj2 (proj2 (createUser_already_exists flt0 hash0 sign0 st0 john)))
             (Some "s3cret") (mkReg "J" "JOHN@example.com" "Password123")
             (mkAuth "tok:c0" [("id", JStr "c0"); ("name", JStr "John Doe");
                ("email", JStr "john@example.com"); ("createdAt", JDate 100); ("updatedAt", JDate 100)])
             st1 flt0_no_faults); reflexivity.
Defined.

Lemma updateUser_partial_witness :
  (id (mkUser "c0" "Jo" "john@example.com" (hash0 "NewPass123") 100 100) = id john_u /\
   name (mkUser "c0" "Jo" "john@example.com" (hash0 "NewPass123") 100 100) = "Jo" /\
   email (mkUser "c0" "Jo" "john@example.com" (hash0 "NewPass123") 100 100) = email john_u /\
   password (mkUser "c0" "Jo" "john@example.com" (hash0 "NewPass123") 100 100) = hash0 "NewPass123" /\
   createdAt (mkUser "c0" "Jo" "john@example.com" (hash0 "NewPass123") 100 100) = createdAt john_u /\
   find_id "c0" (users (snd (updateUser flt0 hash0 "c0" (mkUpd (Some "Jo") None (Some "NewPass123")) st1)))
     = Some (mkUser "c0" "Jo" "john@example.com" (hash0 "NewPass123") 100 100)) /\
  (fst (updateUser flt0 hash0 "c0" (mkUpd None (Some "john@example.com") None) st1)
     = Ok (apply_update (mkUpdateData None (Some "john@example.com") None) 100 john_u) /\
   calls (snd (updateUser flt0 hash0 "c0" (mkUpd None (Some "john@example.com") None) st1))
     = Update "c0" :: FindById "c0" :: calls st1) /\
  userUpdateSchema_parse email_ok0 (mkRaw None None None)
    = Invalid ["At least one field must be provided for update"].
Proof.
  split; [|split].
  - apply (proj1 (updateUser_partial flt0 hash0 email_ok0 "c0" (mkUpd (Some "Jo") None (Some "NewPass123")) st1)
             john_u (mkUser "c0" "Jo" "john@example.com" (hash0 "NewPass123") 100 100)
             (snd (updateUser flt0 hash0 "c0" (mkUpd (Some "Jo") None (Some "NewPass123")) st1)));
      reflexivity.
  - apply (proj1 (proj2 (updateUser_partial flt0 hash0 email_ok0 "c0" (mkUpd None None None) st1)) john_u).
    all: try reflexivity.
    intros r [<-|[]] H. exfalso. apply H. reflexivity.
  - exact (proj2 (proj2 (updateUser_partial flt0 hash0 email_ok0 "c0" (mkUpd None None None) st1))).
Defined.

(** ** Concrete instances of the further properties *)



Lemma verified_payloads_complete_witness :
  (exists k, secret_ok (Some "s3cret") = Some k /\ truthy "tok:c0" = true /\
     verify0 "tok:c0" k 100 = JOk (mkPayload "c0" "john@example.com") /\
     truthy (userId (mkPayload "c0" "john@example.com")) = true /\
     truthy (p_email (mkPayload "c0" "john@example.com")) = true) /\
  (exists tok', verifyToken verify0 (Some "s3cret") tok' 100 = Ok (mkPayload "c0" "john@example.com")).
Proof.
  split.
  - apply (proj1 (verified_payloads_complete verify0 (Some "s3cret") "tok:c0" 100
                    (mkPayload "c0" "john@example.com") (Some "Bearer tok:c0"))).
    reflexivity.
  - apply (proj2 (verified_payloads_complete verify0 (Some "s3cret") "tok:c0" 100
                    (mkPayload "c0" "john@example.com") (Some "Bearer tok:c0"))).
    reflexivity.
Defined.

Lemma bearer_header_accepted_iff_verified_witness :
  authenticateToken verify0 (Some ("Bearer " ++ "tok:c0")) (Some "s3cret") 100
    = MwNext (mkPayload "c0" "john@example.com").
Proof.
  apply (proj2 (bearer_header_accepted_iff_verified verify0 (Some "s3cret") "tok:c0" 100
                  (mkPayload "c0" "john@example.com") eq_refl)).
  reflexivity.
Defined.

Lemma header_format_rejected_iff_witness :
  decision_of (authenticateToken verify0 (Some "bearer tok:c0") (Some "s3cret") 100)
    = DReject 401 "INVALID_TOKEN_FORMAT".
Proof.
  apply (proj2 (header_format_rejected_iff verify0 "bearer tok:c0" (Some "s3cret") 100 eq_refl)).
  intros [tok [H _]]. simpl in H. discriminate H.
Defined.

Lemma issued_token_accepted_witness :
  fst (validateToken flt0 verify0 (Some "s3cret") "tok:c0" st1) = Ok (mkPayload "c0" "john@example.com") /\
  authenticateToken verify0 (Some ("Bearer " ++ "tok:c0")) (Some "s3cret") 100
    = MwNext (mkPayload "c0" "john@example.com").
Proof.
  apply (issued_token_accepted flt0 sign0 verify0 (Some "s3cret") "s3cret" john_u 100 st1).
  all: try reflexivity.
  left; reflexivity.
Defined.

Lemma register_issues_token_witness :
  exists u k, secret_ok (Some "s3cret") = Some k /\ users st1 = (users st0 ++ [u])%list /\
    email u = reg_email john /\ name u = reg_name john /\
    token (mkAuth "tok:c0" (excludePassword (user_obj john_u)))
      = sign0 (mkPayload (id u) (email u)) k DEFAULT_EXPIRES_IN (now st0) /\
    auth_user (mkAuth "tok:c0" (excludePassword (user_obj john_u))) = excludePassword (user_obj u).
Proof.
  apply (register_issues_token flt0 hash0 sign0 (Some "s3cret") john st0
           (mkAuth "tok:c0" (excludePassword (user_obj john_u))) st1).
  reflexivity.
Defined.

Lemma login_success_inv_witness :
  exists u k,
    find_email (toLowerCase (login_email (mkLogin "John@Example.com" "Password123"))) (users st1) = Some u /\
    compare0 (login_password (mkLogin "John@Example.com" "Password123")) (password u) = true /\
    secret_ok (Some "s3cret") = Some k /\
    token (mkAuth "tok:c0" (excludePassword (user_obj john_u)))
      = sign0 (mkPayload (id u) (email u)) k DEFAULT_EXPIRES_IN (now st1) /\
    auth_user (mkAuth "tok:c0" (excludePassword (user_obj john_u))) = excludePassword (user_obj u) /\
    users (log_call (FindByEmail "john@example.com") st1) = users st1.
Proof.
  apply (login_success_inv flt0 compare0 sign0 (Some "s3cret") (mkLogin "John@Example.com" "Password123")
           st1 (mkAuth "tok:c0" (excludePassword (user_obj john_u)))
           (log_call (FindByEmail "john@example.com") st1)).
  reflexivity.
Defined.

Lemma login_email_case_insensitive_witness :
  login flt0 compare0 sign0 (Some "s3cret") (mkLogin "JOHN@example.com" "Password123") st1 =
  login flt0 compare0 sign0 (Some "s3cret")
    (mkLogin (toLowerCase (login_email (mkLogin "JOHN@example.com" "Password123")))
             (login_password (mkLogin "JOHN@example.com" "Password123"))) st1.
Proof.
  apply (login_email_case_insensitive flt0 compare0 sign0 (Some "s3cret")
           (mkLogin "JOHN@example.com" "Password123") st1).
  reflexivity.
Defined.




Lemma invalid_requests_touch_nothing_witness :
  route_register flt0 hash0 sign0 email_ok0 (Some "s3cret")
    (mkRawReg (Some "John Doe") (Some "john") (Some "Password123")) st1
    = (Ok (RespErr 400 "VALIDATION_ERROR" "Request validation failed"), st1) /\
  route_deleteUser flt0 verify0 (Some "Bearer tok:c0") (Some "s3cret") "   " st1
    = (Ok (RespErr 400 "VALIDATION_ERROR" "Request validation failed"), st1).
Proof.
  split.
  - exact (proj1 (proj1 (invalid_requests_touch_nothing flt0 hash0 compare0 sign0 verify0 email_ok0
             (Some "Bearer tok:c0") (Some "s3cret")
             (mkRawReg (Some "John Doe") (Some "john") (Some "Password123"))
             (mkRawLogin None None) "   " (mkRaw None None None) st1) _ eq_refl)).
  - exact (proj2 (proj2 (proj1 (proj2 (proj2 (invalid_requests_touch_nothing flt0 hash0 compare0 sign0
             verify0 email_ok0 (Some "Bearer tok:c0") (Some "s3cret")
             (mkRawReg (Some "John Doe") (Some "john") (Some "Password123"))
             (mkRawLogin None None) "   " (mkRaw None None None) st1))) _ eq_refl))).
Defined.

Lemma routes_keep_emails_lowercase_witness :
  lowercase_store (snd (route_createUser flt0 hash0 verify0 email_ok0 (Some "Bearer tok:c0")
    (Some "s3cret") (mkRawReg (Some "Jane Roe") (Some "Jane@Example.com") (Some "Secret123")) st1)).
Proof.
  exact (Forall_inv (Forall_inv_tail (Forall_inv_tail (Forall_inv_tail (Forall_inv_tail
    (routes_keep_emails_lowercase flt0 hash0 compare0 sign0 verify0 email_ok0
       (Some "Bearer tok:c0") (Some "s3cret")
       (mkRawReg (Some "Jane Roe") (Some "Jane@Example.com") (Some "Secret123"))
       (mkRawLogin None None) "c0" (mkRaw None None None) st1 st1_lowercase)))))).
Defined.

Lemma updateUser_rejections_witness :
  updateUser flt0 hash0 "c9" (mkUpd (Some "Jo") None None) st2
    = (Err (UserNotFoundError "c9"), log_call (FindById "c9") st2) /\
  updateUser flt0 hash0 "c1" (mkUpd None (Some "JOHN@example.com") None) st2
    = (Err (UserAlreadyExistsError "JOHN@example.com"),
       log_call (FindByEmail "john@example.com") (log_call (FindById "c1") st2)).
Proof.
  split.
  - apply (proj1 (updateUser_rejections flt0 hash0 "c9" (mkUpd (Some "Jo") None None) st2 flt0_no_faults)).
    reflexivity.
  - apply (proj2 (updateUser_rejections flt0 hash0 "c1" (mkUpd None (Some "JOHN@example.com") None) st2
             flt0_no_faults) jane_u "JOHN@example.com").
    + reflexivity.
    + reflexivity.
    + vm_compute. discriminate.
    + vm_compute. discriminate.
Defined.

Lemma createUser_mixed_case_email_unreachable_witness :
  fst (login flt0 compare0 sign0 (Some "s3cret") (mkLogin "John@Example.com" "Password123")
        (snd (createUser flt0 hash0 (mkReg "John Doe" "John@Example.com" "Password123") st0)))
  = Err InvalidCredentialsError.
Proof.
  refine (proj2 (proj2 (proj2 (createUser_mixed_case_email_unreachable flt0 hash0 compare0 sign0
            (Some "s3cret") (mkReg "John Doe" "John@Example.com" "Password123") st0
            (mkUser "c0" "John Doe" "John@Example.com" (hash0 "Password123") 100 100)
            (snd (createUser flt0 hash0 (mkReg "John Doe" "John@Example.com" "Password123") st0))
            "Password123" _ _)))).
  - reflexivity.
  - vm_compute. discriminate.
Defined.

Lemma empty_password_is_service_error_witness :
  fst (login flt0 compare0 sign0 (Some "s3cret") (mkLogin "john@example.com" "") st1)
    = Err (AuthServiceError "Login failed" (Some (PlainError "Password must be a non-empty string"))) /\
  fst (createUser flt0 hash0 (mkReg "Jane Roe" "jane@example.com" "") st1)
    = Err (UserServiceError "Failed to create user"
             (Some (PlainError "Password must be a non-empty string"))).
Proof.
  split.
  - apply (proj1 (empty_password_is_service_error flt0 hash0 compare0 sign0 (Some "s3cret")
             "john@example.com" "Jane Roe" st1 john_u eq_refl)).
    reflexivity.
  - apply (proj2 (empty_password_is_service_error flt0 hash0 compare0 sign0 (Some "s3cret")
             "jane@example.com" "Jane Roe" st1 john_u eq_refl)).
    reflexivity.
Defined.
